(** * selene: the condition layer (selene/new/condition.py)

    A shallow embedding of the condition factories of selene and of the
    combinators they are built from.  The factories live in
    [selene/new/condition.py]; they build on [selene.wait.Condition] and on
    [selene.common.predicate], and they query the browser through the driver
    layer ([selene.elements], [selene.driver], the underlying web driver).

    Driver interaction is an effect: every query runs against the state of
    the driver and may change it, and every query may raise.  It is modelled
    by a state-and-error monad over an abstract driver state [W]. *)

From Stdlib Require Import Ascii.
From stdpp Require Import base strings list pretty.

#[local] Open Scope string_scope.

(* ===================================================================== *)
(** ** Driver interaction *)
(* ===================================================================== *)

(** The result of one query to the driver: a value, or a raised error. *)
Inductive Access (A : Type) : Type :=
  | Got (a : A)
  | Raised (error : string).
Arguments Got {A} a.
Arguments Raised {A} error.

(** A computation that talks to the driver. *)
Definition Driver (W A : Type) : Type := W -> Access A * W.

Definition ret {W A} (a : A) : Driver W A := fun w => (Got a, w).

Definition raise {W A} (error : string) : Driver W A :=
  fun w => (Raised error, w).

Definition bind {W A B} (m : Driver W A) (k : A -> Driver W B) : Driver W B :=
  fun w =>
    match m w with
    | (Got a, w') => k a w'
    | (Raised error, w') => (Raised error, w')
    end.

Notation "'let*' x ':=' m 'in' k" := (bind m (fun x => k))
  (at level 10, x name, m at level 100, k at level 200, only parsing).

(** [str(x)] and [repr(x)] of the host language. *)
Class Str (A : Type) := str : A -> string.
Class Repr (A : Type) := repr : A -> string.
#[global] Hint Mode Str ! : typeclass_instances.
#[global] Hint Mode Repr ! : typeclass_instances.

Fixpoint join (sep : string) (parts : list string) : string :=
  match parts with
  | [] => ""
  | [p] => p
  | p :: rest => p +:+ sep +:+ join sep rest
  end.

#[global] Instance str_string : Str string := fun s => s.
#[global] Instance str_Z : Str Z := fun n => pretty n.
#[global] Instance str_bool : Str bool :=
  fun b => if b then "True" else "False".
#[global] Instance repr_option `{Repr A} : Repr (option A) :=
  fun o => match o with Some a => repr a | None => "None" end.
#[global] Instance str_option `{Str A} : Str (option A) :=
  fun o => match o with Some a => str a | None => "None" end.
#[global] Instance repr_list `{Repr A} : Repr (list A) :=
  fun l => "[" +:+ join ", " (map repr l) +:+ "]".
#[global] Instance str_list `{Repr A} : Str (list A) := fun l => repr l.

(** A tuple of arguments, as a variadic parameter binds it; a one-element
    tuple prints with a trailing comma. *)
Definition tuple_repr `{Repr A} (t : list A) : string :=
  match t with
  | [a] => "(" +:+ repr a +:+ ",)"
  | _ => "(" +:+ join ", " (map repr t) +:+ ")"
  end.

(* ===================================================================== *)
(** ** selene.common.predicate *)
(* ===================================================================== *)

Module predicate.

(** [actual == expected] between values of possibly different types. *)
Class PyEq (Actual Expected : Type) := py_eq : Actual -> Expected -> bool.
(** [expected in actual]. *)
Class PyContains (Actual Expected : Type) :=
  py_contains : Actual -> Expected -> bool.
(** [bool(actual)]. *)
Class Truthy (Actual : Type) := truthy : Actual -> bool.

#[global] Instance py_eq_same `{EqDecision A} : PyEq A A | 10 :=
  fun actual expected => bool_decide (actual = expected).
#[global] Instance py_eq_optional `{EqDecision A} : PyEq (option A) A | 5 :=
  fun actual expected => bool_decide (actual = Some expected).

Fixpoint is_substring (expected actual : string) : bool :=
  String.prefix expected actual
  || match actual with
     | EmptyString => false
     | String _ rest => is_substring expected rest
     end.

(** [expected] occurs in [actual] as a contiguous run of characters. *)
Definition occurs_in (expected actual : string) : Prop :=
  exists before after, actual = before +:+ expected +:+ after.

#[global] Instance py_contains_string : PyContains string string :=
  fun actual expected => is_substring expected actual.
#[global] Instance py_contains_optional `{PyContains A B} :
  PyContains (option A) B :=
  fun actual expected =>
    match actual with
    | Some a => py_contains a expected
    | None => false
    end.
#[global] Instance py_contains_list `{PyEq A B} : PyContains (list A) B :=
  fun actual expected => existsb (fun a => py_eq a expected) actual.

#[global] Instance truthy_string : Truthy string :=
  fun actual => negb (bool_decide (actual = "")).
#[global] Instance truthy_optional `{Truthy A} : Truthy (option A) :=
  fun actual => match actual with Some a => truthy a | None => false end.

(** Modelled from the spec: [selene.common.predicate] is not among the
    sources.  "equals(expected): structural equality." *)
Definition equals {Actual Expected} `{PyEq Actual Expected}
    (expected : Expected) : Actual -> bool :=
  fun actual => py_eq actual expected.

(** Modelled from the spec: [selene.common.predicate] is not among the
    sources.  "includes(expected): substring/membership containment
    (actual contains expected)"; "an inapplicable comparison evaluates to
    false rather than raising". *)
Definition includes {Actual Expected} `{PyContains Actual Expected}
    (expected : Expected) : Actual -> bool :=
  fun actual => py_contains actual expected.

(** The white space of the host language ([str.isspace], the characters
    [str.split()] delimits on).  A string is read as a sequence of
    characters, one [ascii] for each, which covers the code points below
    256; the white space among them is U+0009 to U+000D, U+001C to U+001F,
    U+0020, U+0085 and U+00A0. *)
Definition is_space (c : ascii) : bool :=
  bool_decide
    (c ∈ [" "; "009"; "010"; "011"; "012"; "013";
          "028"; "029"; "030"; "031"; "133"; "160"]%char).

(** [actual.split()]: the maximal runs of characters that are not white
    space.  [word] is the run being read, in reverse. *)
Fixpoint split_go (word : list ascii) (actual : string) : list string :=
  let flush rest :=
    match word with
    | [] => rest
    | _ => String.string_of_list_ascii (rev word) :: rest
    end in
  match actual with
  | EmptyString => flush []
  | String c rest =>
      if is_space c then flush (split_go [] rest)
      else split_go (c :: word) rest
  end.
Definition split (actual : string) : list string := split_go [] actual.

(** Modelled from the spec: [selene.common.predicate] is not among the
    sources.  "includes_word(expected): expected appears as a separate
    whitespace-delimited token within actual." *)
Definition includes_word (expected : string) : string -> bool :=
  fun actual => bool_decide (expected ∈ split actual).
Definition includes_word_optional (expected : string)
    : option string -> bool :=
  fun actual =>
    match actual with
    | Some a => includes_word expected a
    | None => false
    end.

(** Modelled from the spec: [selene.common.predicate] is not among the
    sources.  "is_truthy(): actual is non-null/non-empty/non-zero per the
    host type's truthiness rules." *)
Definition is_truthy {Actual} `{Truthy Actual} : Actual -> bool :=
  fun actual => truthy actual.

(** Modelled from the spec: [selene.common.predicate] is not among the
    sources.  "is_greater_than(expected), is_greater_than_or_equal,
    is_less_than, is_less_than_or_equal: numeric ordering." *)
Definition is_greater_than (expected : Z) : Z -> bool :=
  fun actual => bool_decide (actual > expected)%Z.
Definition is_greater_than_or_equal (expected : Z) : Z -> bool :=
  fun actual => bool_decide (actual >= expected)%Z.
Definition is_less_than (expected : Z) : Z -> bool :=
  fun actual => bool_decide (actual < expected)%Z.
Definition is_less_than_or_equal (expected : Z) : Z -> bool :=
  fun actual => bool_decide (actual <= expected)%Z.

(** Modelled from the spec: [selene.common.predicate] is not among the
    sources.  The positional pairing of the two list predicates: the same
    length, and every pair related by [f]. *)
Fixpoint list_compare_by {A B} (f : A -> B -> bool)
    (actual : list A) (expected : list B) : bool :=
  match actual, expected with
  | [], [] => true
  | a :: actual', e :: expected' =>
      f a e && list_compare_by f actual' expected'
  | _, _ => false
  end.

(** Modelled from the spec: [selene.common.predicate] is not among the
    sources.  "equals_to_list(expected_sequence): actual sequence has
    identical length and each element equals the corresponding expected
    element, in order." *)
Definition equals_to_list {Actual Expected} `{PyEq Actual Expected}
    (expected : list Expected) : list Actual -> bool :=
  fun actual => list_compare_by py_eq actual expected.

(** Modelled from the spec: [selene.common.predicate] is not among the
    sources.  "equals_by_contains_to_list(expected_sequence): same
    positional pairing, but each pair compared by containment rather than
    equality." *)
Definition equals_by_contains_to_list {Actual Expected}
    `{PyContains Actual Expected}
    (expected : list Expected) : list Actual -> bool :=
  fun actual => list_compare_by py_contains actual expected.

End predicate.

(* ===================================================================== *)
(** ** selene.wait: Condition *)
(* ===================================================================== *)

Module wait.

(** Modelled from the spec: [selene.wait] is not among the sources.
    "PredicateMismatch: accessor succeeded, predicate returned false -
    carries description + actual value.  AccessFailure: the accessor
    itself failed - carries description + underlying error detail." *)
Inductive Failure : Type :=
  | PredicateMismatch (description actual : string)
  | AccessFailure (description detail : string).

Definition failure_description (f : Failure) : string :=
  match f with
  | PredicateMismatch d _ => d
  | AccessFailure d _ => d
  end.

(** Modelled from the spec: [selene.wait] is not among the sources.
    The result of one evaluation of a condition, "Result<Unit, Failure>". *)
Inductive Outcome : Type :=
  | Passed
  | Failed (failure : Failure).

Definition passed (o : Outcome) : bool :=
  match o with Passed => true | Failed _ => false end.

Section Condition.
Context {W : Type}.

(** Modelled from the spec: [selene.wait] is not among the sources.
    "Condition<S>: a human-readable description string; a check function
    S -> Result<Unit, Failure>", the check running against the driver.
    "build(description, check_fn): constructs a Condition wrapping a
    check function." *)
Record Condition (S : Type) : Type := build {
  description : string;
  check : S -> W -> Outcome * W
}.
#[global] Arguments build {S} description check.
#[global] Arguments description {S} c.
#[global] Arguments check {S} c subject w.

(** The two observable results of evaluating a condition on a subject
    in a driver state. *)
Definition succeeds {S} (c : Condition S) (subject : S) (w : W) : Prop :=
  fst (check c subject w) = Passed.
Definition fails {S} (c : Condition S) (subject : S) (w : W) : Prop :=
  exists failure, fst (check c subject w) = Failed failure.

(** Modelled from the spec: [selene.wait] is not among the sources.
    [call] is the name under which the source reaches the check function of
    a condition. *)
Definition call {S} (c : Condition S) : S -> W -> Outcome * W := check c.

(** Modelled from the spec: [selene.wait] is not among the sources.
    "String representation: returns the description." *)
#[global] Instance str_condition {S} : Str (Condition S) := description.

(** Modelled from the spec: [selene.wait] is not among the sources.
    "raise_if_not(description, predicate_over_subject): a Condition
    whose check applies predicate_over_subject(subject) directly;
    success iff true; otherwise fails with description plus the
    subject's string form."  A predicate that fails to reach the subject
    is an access failure. *)
Definition raise_if_not {S} `{Str S} (description : string)
    (predicate_over_subject : S -> Driver W bool) : Condition S :=
  build description (fun subject w =>
    match predicate_over_subject subject w with
    | (Got true, w') => (Passed, w')
    | (Got false, w') =>
        (Failed (PredicateMismatch description (str subject)), w')
    | (Raised error, w') => (Failed (AccessFailure description error), w')
    end).

(** Modelled from the spec: [selene.wait] is not among the sources.
    "raise_if_not_actual(description, accessor, predicate): a Condition
    whose check computes actual = accessor(subject), then evaluates
    predicate(actual); on failure, the message embeds description and
    the captured actual (or the access-time error)." *)
Definition raise_if_not_actual {S R} `{Str R} (description : string)
    (accessor : S -> Driver W R) (predicate : R -> bool) : Condition S :=
  build description (fun subject w =>
    match accessor subject w with
    | (Got actual, w') =>
        if predicate actual then (Passed, w')
        else (Failed (PredicateMismatch description (str actual)), w')
    | (Raised error, w') => (Failed (AccessFailure description error), w')
    end).

(** Modelled from the spec: [selene.wait] is not among the sources.
    "negate(condition, described_as=None): returns a new Condition that
    succeeds exactly when the wrapped condition fails and vice versa;
    default description is "not " + original description unless
    described_as overrides it."  The spec leaves open what the failure
    of a negation carries besides its description; as in [raise_if_not]
    it is the subject's string form here. *)
Definition negate {S} `{Str S} (condition : Condition S)
    (described_as : option string) : Condition S :=
  let new_description :=
    match described_as with
    | Some d => d
    | None => "not " +:+ description condition
    end in
  build new_description (fun subject w =>
    match check condition subject w with
    | (Passed, w') =>
        (Failed (PredicateMismatch new_description (str subject)), w')
    | (Failed _, w') => (Passed, w')
    end).

(** Modelled from the spec: [selene.wait] is not among the sources.
    [as_not] is the name under which the source calls [negate]. *)
Definition as_not {S} `{Str S} (condition : Condition S)
    (description : option string) : Condition S :=
  negate condition description.

(** Modelled from the spec: [selene.wait] is not among the sources.
    "and_(other): returns a new Condition that succeeds only if both
    self and other succeed on the same subject, evaluated left-to-right;
    first failure short-circuits and its message is surfaced."  The spec
    does not give the description of the conjunction; here the two
    descriptions are joined by " and ". *)
Definition and_ {S} (self other : Condition S) : Condition S :=
  build (description self +:+ " and " +:+ description other)
    (fun subject w =>
      match check self subject w with
      | (Passed, w') => check other subject w'
      | (Failed failure, w') => (Failed failure, w')
      end).

End Condition.
#[global] Arguments Condition W S : clear implicits.

End wait.

(* ===================================================================== *)
(** ** The driver layer *)
(* ===================================================================== *)

(** What the factories ask of [selene.elements], [selene.driver] and the web
    driver below them.  A subject is a handle: calling it ([element()],
    [collection()], [browser()]) locates what it stands for, and the
    properties of what was located are further queries.  None of this code is
    part of the condition layer; it is a parameter of everything below. *)
Class DriverLayer (W : Type) : Type := {
  WebElement : Type;
  WebDriver : Type;
  SeleneElement : Type;
  SeleneCollection : Type;
  SeleneDriver : Type;
  (** [element()]; [None] is a null handle *)
  element_call : SeleneElement -> Driver W (option WebElement);
  (** [collection()] *)
  collection_call : SeleneCollection -> Driver W (list WebElement);
  (** [browser()] *)
  browser_call : SeleneDriver -> Driver W WebDriver;
  is_displayed : WebElement -> Driver W bool;
  is_enabled : WebElement -> Driver W bool;
  text : WebElement -> Driver W string;
  get_attribute : WebElement -> string -> Driver W (option string);
  current_url : WebDriver -> Driver W string;
  title : WebDriver -> Driver W string;
  window_handles : WebDriver -> Driver W (list string);
  str_element :: Str SeleneElement;
  str_collection :: Str SeleneCollection;
  str_browser :: Str SeleneDriver
}.

(* ===================================================================== *)
(** ** selene/new/condition.py *)
(* ===================================================================== *)

Module condition.
Import wait.

Section Factories.
Context {W : Type} `{!DriverLayer W} `{!Repr string}.

(** A property of the located element, [element().<attribute>]; on a
    null handle the attribute lookup raises. *)
Definition located {A} (attribute : string)
    (query : WebElement -> Driver W A)
    (handle : option WebElement) : Driver W A :=
  match handle with
  | Some webelement => query webelement
  | None =>
      raise ("'NoneType' object has no attribute '" +:+ attribute +:+ "'")
  end.

Definition element_is_visible : Condition W SeleneElement :=
  raise_if_not "is visible" (fun element =>
    let* handle := element_call element in
    located "is_displayed" is_displayed handle).

Definition element_is_hidden : Condition W SeleneElement :=
  as_not element_is_visible (Some "is hidden").

Definition element_is_enabled : Condition W SeleneElement :=
  raise_if_not "is enabled" (fun element =>
    let* handle := element_call element in
    located "is_enabled" is_enabled handle).

Definition element_is_disabled : Condition W SeleneElement :=
  as_not element_is_enabled None.

Definition element_is_present : Condition W SeleneElement :=
  raise_if_not "is visible" (fun element =>
    let* handle := element_call element in
    ret (bool_decide (is_Some handle))).

Definition element_is_absent : Condition W SeleneElement :=
  as_not element_is_present None.

(** The accessor [text] local to [element_has_text]. *)
Definition element_text (element : SeleneElement) : Driver W string :=
  let* handle := element_call element in
  located "text" text handle.

Definition element_has_text (expected : string)
    (describing_matched_to : string)
    (compared_by_predicate_to : string -> string -> bool)
    : Condition W SeleneElement :=
  raise_if_not_actual (describing_matched_to +:+ " " +:+ expected)
    element_text
    (compared_by_predicate_to expected).

(** [element_has_text(expected)], the keyword arguments at their
    defaults. *)
Definition element_has_text' (expected : string)
    : Condition W SeleneElement :=
  element_has_text expected "has text" predicate.includes.

Definition element_has_exact_text (expected : string)
    : Condition W SeleneElement :=
  element_has_text expected "has exact text" predicate.equals.

(** The accessors local to [element_has_attribute]. *)
Definition attribute_value (name : string) (element : SeleneElement)
    : Driver W (option string) :=
  let* handle := element_call element in
  located "get_attribute" (fun webelement => get_attribute webelement name)
    handle.

Fixpoint get_attributes (name : string) (webelements : list WebElement)
    : Driver W (list (option string)) :=
  match webelements with
  | [] => ret []
  | webelement :: rest =>
      let* v := get_attribute webelement name in
      let* vs := get_attributes name rest in
      ret (v :: vs)
  end.

Definition attribute_values (name : string) (collection : SeleneCollection)
    : Driver W (list (option string)) :=
  let* webelements := collection_call collection in
  get_attributes name webelements.

(** The class [ConditionWithValues] of [element_has_attribute]: a
    condition on an element with four further conditions derived from
    it. *)
Record ConditionWithValues : Type := {
  as_condition :> Condition W SeleneElement;
  value : string -> Condition W SeleneElement;
  value_containing : string -> Condition W SeleneElement;
  values : list string -> Condition W SeleneCollection;
  values_containing : list string -> Condition W SeleneCollection
}.

Definition element_has_attribute (name : string) : ConditionWithValues :=
  let raw_attribute_condition :=
    raise_if_not_actual ("has attribute " +:+ name)
      (attribute_value name)
      predicate.is_truthy in
  {| as_condition :=
       build (str raw_attribute_condition) (call raw_attribute_condition);
     value expected :=
       raise_if_not_actual
         ("has attribute '" +:+ name +:+ "' with value '"
            +:+ expected +:+ "'")
         (attribute_value name)
         (predicate.equals expected);
     value_containing expected :=
       raise_if_not_actual
         ("has attribute '" +:+ name +:+ "' with value containing '"
            +:+ expected +:+ "'")
         (attribute_value name)
         (predicate.includes expected);
     values expected :=
       raise_if_not_actual
         ("has attribute '" +:+ name +:+ "' with values '"
            +:+ tuple_repr expected +:+ "'")
         (attribute_values name)
         (predicate.equals_to_list expected);
     values_containing expected :=
       raise_if_not_actual
         ("has attribute '" +:+ name +:+ "' with values containing '"
            +:+ tuple_repr expected +:+ "'")
         (attribute_values name)
         (predicate.equals_by_contains_to_list expected) |}.

Definition element_is_selected : ConditionWithValues :=
  element_has_attribute "elementIsSelected".

Definition element_has_value (expected : string)
    : Condition W SeleneElement :=
  value (element_has_attribute "value") expected.

Definition element_has_value_containing (expected : string)
    : Condition W SeleneElement :=
  value_containing (element_has_attribute "value") expected.

Definition element_has_css_class (expected : string)
    : Condition W SeleneElement :=
  raise_if_not_actual ("has css class '" +:+ expected +:+ "'")
    (attribute_value "class")
    (predicate.includes_word_optional expected).

Definition element_is_blank : Condition W SeleneElement :=
  and_ (element_has_exact_text "") (element_has_value "").

(** The accessor [size] local to [collection_has_size]. *)
Definition collection_size (collection : SeleneCollection) : Driver W Z :=
  let* webelements := collection_call collection in
  ret (Z.of_nat (length webelements)).

Definition collection_has_size (expected : Z)
    (describing_matched_to : string)
    (compared_by_predicate_to : Z -> Z -> bool)
    : Condition W SeleneCollection :=
  raise_if_not_actual (describing_matched_to +:+ " " +:+ str expected)
    collection_size
    (compared_by_predicate_to expected).

(** [collection_has_size(expected)], the keyword arguments at their
    defaults. *)
Definition collection_has_size' (expected : Z)
    : Condition W SeleneCollection :=
  collection_has_size expected "has size" predicate.equals.

Definition collection_has_size_greater_than (expected : Z) :=
  collection_has_size expected "has size greater than"
    predicate.is_greater_than.

Definition collection_has_size_greater_than_or_equal (expected : Z) :=
  collection_has_size expected "has size greater than or equal"
    predicate.is_greater_than_or_equal.

Definition collection_has_size_less_than (expected : Z) :=
  collection_has_size expected "has size less than"
    predicate.is_less_than.

Definition collection_has_size_less_than_or_equal (expected : Z) :=
  collection_has_size expected "has size less than or equal"
    predicate.is_less_than_or_equal.

(** [[webelement.text for webelement in webelements
      if webelement.is_displayed()]] *)
Fixpoint texts_if_displayed (webelements : list WebElement)
    : Driver W (list string) :=
  match webelements with
  | [] => ret []
  | webelement :: rest =>
      let* displayed := is_displayed webelement in
      if displayed then
        let* t := text webelement in
        let* ts := texts_if_displayed rest in
        ret (t :: ts)
      else texts_if_displayed rest
  end.

(** The accessor [visible_texts] local to [collection_has_texts] and to
    [collection_has_exact_texts]. *)
Definition visible_texts (collection : SeleneCollection)
    : Driver W (list string) :=
  let* webelements := collection_call collection in
  texts_if_displayed webelements.

Definition collection_has_texts {Any : Type} (self : Any)
    (expected : list string) : Condition W SeleneCollection :=
  raise_if_not_actual ("has texts " +:+ tuple_repr expected)
    visible_texts
    (predicate.equals_by_contains_to_list expected).

Definition collection_has_exact_texts {Any : Type} (self : Any)
    (expected : list string) : Condition W SeleneCollection :=
  raise_if_not_actual ("has exact texts " +:+ tuple_repr expected)
    visible_texts
    (predicate.equals_to_list expected).

(** A call with positional arguments only of a function whose
    parameters are [self] and the variadic [expected]: the first argument
    is bound to [self], the rest to [expected]; with no argument at all
    the call is a [TypeError] ([None]). *)
Definition call_positionally {Any C : Type}
    (f : Any -> list Any -> C) (args : list Any) : option C :=
  match args with
  | [] => None
  | self :: expected => Some (f self expected)
  end.

(** The accessor [url] local to [browser_has_url]. *)
Definition browser_url (browser : SeleneDriver) : Driver W string :=
  let* webdriver := browser_call browser in
  current_url webdriver.

Definition browser_has_url (expected : string)
    (describing_matched_to : string)
    (compared_by_predicate_to : string -> string -> bool)
    : Condition W SeleneDriver :=
  raise_if_not_actual (describing_matched_to +:+ " + " +:+ expected)
    browser_url
    (compared_by_predicate_to expected).

(** [browser_has_url(expected)], the keyword arguments at their
    defaults. *)
Definition browser_has_url' (expected : string)
    : Condition W SeleneDriver :=
  browser_has_url expected "has url" predicate.equals.

Definition browser_has_url_containing (expected : string)
    : Condition W SeleneDriver :=
  browser_has_url expected "has url containing" predicate.includes.

(** The accessor [title] local to [browser_has_title]. *)
Definition browser_title (browser : SeleneDriver) : Driver W string :=
  let* webdriver := browser_call browser in
  title webdriver.

Definition browser_has_title (expected : string)
    (describing_matched_to : string)
    (compared_by_predicate_to : string -> string -> bool)
    : Condition W SeleneDriver :=
  raise_if_not_actual (describing_matched_to +:+ " + " +:+ expected)
    browser_title
    (compared_by_predicate_to expected).

(** [browser_has_title(expected)], the keyword arguments at their
    defaults. *)
Definition browser_has_title' (expected : string)
    : Condition W SeleneDriver :=
  browser_has_title expected "has title" predicate.equals.

Definition browser_has_title_containing (expected : string)
    : Condition W SeleneDriver :=
  browser_has_title expected "has title containing" predicate.includes.

(** The accessor [tabs_number] local to [browser_has_tabs_number]. *)
Definition browser_tabs_number (browser : SeleneDriver) : Driver W Z :=
  let* webdriver := browser_call browser in
  let* handles := window_handles webdriver in
  ret (Z.of_nat (length handles)).

Definition browser_has_tabs_number (expected : Z)
    (describing_matched_to : string)
    (compared_by_predicate_to : Z -> Z -> bool)
    : Condition W SeleneDriver :=
  raise_if_not_actual (describing_matched_to +:+ " " +:+ str expected)
    browser_tabs_number
    (compared_by_predicate_to expected).

(** [browser_has_tabs_number(expected)], the keyword arguments at their
    defaults. *)
Definition browser_has_tabs_number' (expected : Z)
    : Condition W SeleneDriver :=
  browser_has_tabs_number expected "has tabs number" predicate.equals.

Definition browser_has_tabs_number_greater_than (expected : Z) :=
  browser_has_tabs_number expected "has tabs number greater than"
    predicate.is_greater_than.

Definition browser_has_tabs_number_greater_than_or_equal (expected : Z) :=
  browser_has_tabs_number expected "has tabs number greater than or equal"
    predicate.is_greater_than_or_equal.

Definition browser_has_tabs_number_less_than (expected : Z) :=
  browser_has_tabs_number expected "has tabs number less than"
    predicate.is_less_than.

Definition browser_has_tabs_number_less_than_or_equal (expected : Z) :=
  browser_has_tabs_number expected "has tabs number less than or equal"
    predicate.is_less_than_or_equal.

End Factories.

End condition.

(* ===================================================================== *)
(** ** A call-counting stub of the driver layer *)
(* ===================================================================== *)

(** A page held in memory.  The driver state is the number of queries made
    so far; every query adds one to it, and every query on an element that
    has been detached from the page raises. *)
Module stub.

Record Element : Type := {
  detached : bool;
  displayed : bool;
  enabled : bool;
  inner_text : string;
  attributes : list (string * string)
}.

Record Browser : Type := {
  url : string;
  page_title : string;
  windows : list string
}.

Definition counted {A} (answer : Access A) : Driver nat A :=
  fun calls => (answer, S calls).

Definition query {A} (element : Element) (answer : A) : Driver nat A :=
  counted (if detached element then Raised "stale element reference"
           else Got answer).

Fixpoint lookup (name : string) (attrs : list (string * string))
    : option string :=
  match attrs with
  | [] => None
  | (n, v) :: rest =>
      if bool_decide (n = name) then Some v else lookup name rest
  end.

#[export] Instance driver : DriverLayer nat := {|
  WebElement := Element;
  WebDriver := Browser;
  SeleneElement := Access (option Element);
  SeleneCollection := Access (list Element);
  SeleneDriver := Browser;
  element_call handle := counted handle;
  collection_call handles := counted handles;
  browser_call browser := counted (Got browser);
  is_displayed element := query element (displayed element);
  is_enabled element := query element (enabled element);
  text element := query element (inner_text element);
  get_attribute element name :=
    query element (lookup name (attributes element));
  current_url browser := counted (Got (url browser));
  title browser := counted (Got (page_title browser));
  window_handles browser := counted (Got (windows browser));
  str_element := fun _ => "element";
  str_collection := fun _ => "collection";
  str_browser := fun _ => "browser"
|}.

(** [repr] of a string without quotes, backslashes or control
    characters. *)
#[export] Instance repr_plain : Repr string :=
  fun s => "'" +:+ s +:+ "'".

(** An accessor that reads nothing from the driver and only counts its
    calls. *)
Definition counting_accessor {S A} (answer : A) : S -> Driver nat A :=
  fun _ => counted (Got answer).

Definition input (value_attribute : string) (content : string) : Element :=
  {| detached := false; displayed := true; enabled := true;
     inner_text := content;
     attributes := [("value", value_attribute)] |}.

Definition item (shown : bool) (content : string) : Element :=
  {| detached := false; displayed := shown; enabled := true;
     inner_text := content; attributes := [] |}.

Definition gone : Element :=
  {| detached := true; displayed := false; enabled := false;
     inner_text := ""; attributes := [] |}.

Definition page (elements : list Element) : Access (list Element) :=
  Got elements.

(** A condition that fails without a query, and one whose accessor is the
    counting one. *)
Definition never_met : wait.Condition nat string :=
  wait.raise_if_not "is never met" (fun _ => ret false).

Definition counted_condition : wait.Condition nat string :=
  wait.raise_if_not_actual "has the counted value"
    (counting_accessor "v") (predicate.equals "v").

End stub.

(* ===================================================================== *)
(** ** Facts about the predicates *)
(* ===================================================================== *)

Section PredicateFacts.
Import predicate.

Lemma prefix_iff_app (expected actual : string) :
  String.prefix expected actual = true <->
  exists after, actual = expected +:+ after.
Proof.
  revert actual.
  induction expected as [|c expected IH]; intros actual; simpl.
  - destruct actual; simpl; split; eauto.
  - destruct actual as [|c' actual]; simpl.
    + split; [discriminate | intros [after Hafter]; discriminate].
    + destruct (ascii_dec c c') as [->|Hne].
      * rewrite IH. split.
        -- intros [after ->]. by exists after.
        -- intros [after Hafter]. injection Hafter as ->. by exists after.
      * split; [discriminate|].
        intros [after Hafter]. simpl in Hafter. by injection Hafter as <-.
Qed.

Lemma is_substring_iff (expected actual : string) :
  is_substring expected actual = true <-> occurs_in expected actual.
Proof.
  unfold occurs_in.
  induction actual as [|c actual IH]; cbn [is_substring].
  - rewrite orb_false_r, prefix_iff_app. split.
    + intros [after ->]. by exists "", after.
    + intros ([|? before] & after & H); [eauto | discriminate].
  - rewrite orb_true_iff, prefix_iff_app, IH. split.
    + intros [[after ->] | (before & after & ->)].
      * by exists "", after.
      * by exists (String c before), after.
    + intros ([|c' before] & after & H); simpl in H.
      * left. eauto.
      * injection H as -> ->. right. eauto.
Qed.

Lemma list_compare_by_iff {A B} (f : A -> B -> bool) actual expected :
  list_compare_by f actual expected = true <->
  Forall2 (fun a e => f a e = true) actual expected.
Proof.
  revert expected.
  induction actual as [|a actual IH]; intros [|e expected]; simpl.
  - split; [constructor | done].
  - split; [discriminate | inversion 1].
  - split; [discriminate | inversion 1].
  - rewrite andb_true_iff, IH. split.
    + intros [? ?]. by constructor.
    + by inversion 1.
Qed.

Lemma equals_to_list_iff (expected actual : list string) :
  equals_to_list expected actual = true <->
  length actual = length expected /\
  Forall2 (fun a e => a = e) actual expected.
Proof.
  unfold equals_to_list. rewrite list_compare_by_iff. split.
  - intros H. split; [by eapply Forall2_length|].
    eapply Forall2_impl; [exact H|].
    intros a e. unfold py_eq, py_eq_same. apply bool_decide_eq_true.
  - intros [_ H]. eapply Forall2_impl; [exact H|].
    intros a e. unfold py_eq, py_eq_same. apply bool_decide_eq_true.
Qed.

Lemma equals_by_contains_to_list_iff (expected actual : list string) :
  equals_by_contains_to_list expected actual = true <->
  Forall2 (fun a e => occurs_in e a) actual expected.
Proof.
  unfold equals_by_contains_to_list. rewrite list_compare_by_iff.
  split; intros H; (eapply Forall2_impl; [exact H|]); intros a e;
    unfold py_contains, py_contains_string; apply is_substring_iff.
Qed.

(** The examples the specification gives for the list predicates. *)
Example equals_to_list_same :
  equals_to_list ["a"; "b"] ["a"; "b"] = true.
Proof. reflexivity. Qed.
Example equals_to_list_other :
  equals_to_list ["a"; "b"] ["a"; "c"] = false.
Proof. reflexivity. Qed.
Example equals_to_list_shorter :
  equals_to_list ["a"; "b"] ["a"] = false.
Proof. reflexivity. Qed.
Example equals_by_contains_to_list_inside :
  equals_by_contains_to_list ["a"] ["xaz"] = true.
Proof. vm_compute. reflexivity. Qed.
Example includes_word_token :
  includes_word "active" "btn  active large" = true
  /\ includes_word "act" "btn active" = false.
Proof. vm_compute. done. Qed.

End PredicateFacts.

(* ===================================================================== *)
(** ** Condition: conjunction and negation *)
(* ===================================================================== *)

Section ConditionFacts.
Import wait.
Context {W S : Type}.
Implicit Types (c : Condition W S) (s : S) (w : W).

Lemma fails_iff_not_succeeds c s w : fails c s w <-> ~ succeeds c s w.
Proof.
  unfold fails, succeeds. destruct (fst (check c s w)) as [|failure].
  - split; [intros [? ?]; discriminate | congruence].
  - split; [discriminate | eauto].
Qed.

Lemma succeeds_dec c s w : succeeds c s w \/ fails c s w.
Proof.
  unfold fails, succeeds. destruct (fst (check c s w)); eauto.
Qed.

(** The evaluation of a conjunction, by the result of its first part. *)
Lemma and_check_passed c1 c2 s w w1 :
  check c1 s w = (Passed, w1) -> check (and_ c1 c2) s w = check c2 s w1.
Proof. intros H. simpl. by rewrite H. Qed.

Lemma and_check_failed c1 c2 s w failure w1 :
  check c1 s w = (Failed failure, w1) ->
  check (and_ c1 c2) s w = (Failed failure, w1).
Proof. intros H. simpl. by rewrite H. Qed.

(** The evaluation of a negation. *)
Lemma negate_succeeds `{!Str S} c described_as s w :
  succeeds (negate c described_as) s w <-> fails c s w.
Proof.
  unfold succeeds, fails. simpl.
  destruct (check c s w) as [[|failure] w1]; simpl.
  - split; [discriminate | intros [? ?]; discriminate].
  - split; eauto.
Qed.

Lemma negate_state `{!Str S} c described_as s w :
  snd (check (negate c described_as) s w) = snd (check c s w).
Proof. simpl. by destruct (check c s w) as [[|failure] w1]. Qed.

Lemma and_succeeds c1 c2 s w :
  succeeds (and_ c1 c2) s w <->
  succeeds c1 s w /\ succeeds c2 s (snd (check c1 s w)).
Proof.
  unfold succeeds.
  destruct (check c1 s w) as [[|failure1] w1] eqn:H1.
  - rewrite (and_check_passed _ c2 _ _ _ H1). cbn [fst snd]. tauto.
  - rewrite (and_check_failed _ c2 _ _ _ _ H1). cbn [fst snd].
    split; [discriminate | intros [? _]; discriminate].
Qed.

(** The evaluation of a condition built from an accessor and a
    predicate. *)
Lemma raise_if_not_actual_succeeds {R} `{!Str R} description
    (accessor : S -> Driver W R) (predicate : R -> bool) s w :
  succeeds (raise_if_not_actual description accessor predicate) s w <->
  exists actual w1, accessor s w = (Got actual, w1) /\ predicate actual = true.
Proof.
  unfold succeeds. simpl.
  destruct (accessor s w) as [[actual|error] w1]; simpl.
  - destruct (predicate actual) eqn:Hp; simpl.
    + split; [eauto | done].
    + split; [discriminate|]. intros (a & w' & Heq & Ha). congruence.
  - split; [discriminate|]. intros (a & w' & Heq & _). discriminate.
Qed.

Lemma raise_if_not_actual_state {R} `{!Str R} description
    (accessor : S -> Driver W R) (predicate : R -> bool) s w :
  snd (check (raise_if_not_actual description accessor predicate) s w) =
  snd (accessor s w).
Proof.
  simpl. destruct (accessor s w) as [[actual|error] w1]; simpl; [|done].
  by destruct (predicate actual).
Qed.

(** C2: a conjunction succeeds exactly when both parts succeed, the
    first evaluated before the second, which runs in the driver state the
    first one leaves; when the first part fails, its failure is the
    failure of the conjunction, and the evaluation ends there. *)
Theorem and_succeeds_iff_both c1 c2 s w :
  (succeeds (and_ c1 c2) s w <->
     succeeds c1 s w /\ succeeds c2 s (snd (check c1 s w)))
  /\ (forall failure,
        fst (check c1 s w) = Failed failure ->
        fst (check (and_ c1 c2) s w) = Failed failure)
  /\ snd (check (and_ c1 c2) s w) =
       match fst (check c1 s w) with
       | Passed => snd (check c2 s (snd (check c1 s w)))
       | Failed _ => snd (check c1 s w)
       end.
Proof.
  split; [apply and_succeeds|].
  destruct (check c1 s w) as [[|failure1] w1] eqn:H1.
  - rewrite (and_check_passed _ c2 _ _ _ H1). cbn [fst snd].
    split; [discriminate | reflexivity].
  - rewrite (and_check_failed _ c2 _ _ _ _ H1). cbn [fst snd].
    split; [done | reflexivity].
Qed.

(** C3: when the first part of a conjunction fails, evaluating the
    conjunction is evaluating the first part alone: the same failure and
    the same driver state, whatever the second part is.  Nothing of the
    second part runs, so an accessor of it that counts its calls counts
    none. *)
Theorem and_short_circuits c1 c2 s w :
  fails c1 s w -> check (and_ c1 c2) s w = check c1 s w.
Proof.
  intros [failure H]. destruct (check c1 s w) as [o w1] eqn:H1.
  simpl in H. subst o. by apply and_check_failed.
Qed.

(** C4: negating twice gives back the observable result: the double
    negation succeeds exactly when the condition succeeds and fails
    exactly when it fails, whatever the two descriptions are, and it
    leaves the driver in the same state. *)
Theorem negate_negate `{!Str S} c described_as1 described_as2 s w :
  (succeeds (negate (negate c described_as1) described_as2) s w <->
     succeeds c s w)
  /\ (fails (negate (negate c described_as1) described_as2) s w <->
        fails c s w)
  /\ snd (check (negate (negate c described_as1) described_as2) s w) =
       snd (check c s w).
Proof.
  split; [|split].
  - rewrite negate_succeeds, fails_iff_not_succeeds, negate_succeeds.
    rewrite fails_iff_not_succeeds.
    destruct (succeeds_dec c s w) as [H|H]; [tauto|].
    apply fails_iff_not_succeeds in H. tauto.
  - rewrite fails_iff_not_succeeds, negate_succeeds.
    rewrite fails_iff_not_succeeds, negate_succeeds.
    rewrite fails_iff_not_succeeds.
    destruct (succeeds_dec c s w) as [H|H]; [tauto|].
    apply fails_iff_not_succeeds in H. tauto.
  - by rewrite !negate_state.
Qed.

End ConditionFacts.

(* ===================================================================== *)
(** ** The factories of selene/new/condition.py *)
(* ===================================================================== *)

Section FactoryFacts.
Import wait predicate condition.
Context {W : Type} `{!DriverLayer W} `{!Repr string}.
Implicit Types (w : W) (element : SeleneElement)
  (collection : SeleneCollection) (expected : string).

(** A property of the located element is read in two queries: the call of
    the handle, then the property itself. *)
Lemma located_query {A} attribute (query : WebElement -> Driver W A)
    element w (a : A) w2 :
  (let* handle := element_call element in located attribute query handle) w
    = (Got a, w2) <->
  exists webelement w1,
    element_call element w = (Got (Some webelement), w1)
    /\ query webelement w1 = (Got a, w2).
Proof.
  unfold bind.
  destruct (element_call element w) as [[[webelement|]|error] w1]; simpl.
  - split; [eauto|]. by intros (? & ? & [= <- <-] & ?).
  - unfold raise. split; [discriminate | by intros (? & ? & ? & ?)].
  - split; [discriminate | by intros (? & ? & ? & ?)].
Qed.

(** The two accessors of an element in terms of the queries they make. *)
Lemma element_text_iff element w (actual : string) w2 :
  element_text element w = (Got actual, w2) <->
  exists webelement w1,
    element_call element w = (Got (Some webelement), w1)
    /\ text webelement w1 = (Got actual, w2).
Proof. apply located_query. Qed.

Lemma attribute_value_iff name element w (actual : option string) w2 :
  attribute_value name element w = (Got actual, w2) <->
  exists webelement w1,
    element_call element w = (Got (Some webelement), w1)
    /\ get_attribute webelement name w1 = (Got actual, w2).
Proof.
  apply (located_query "get_attribute"
           (fun webelement => get_attribute webelement name)).
Qed.

(** C1: [element_is_blank] succeeds exactly when the element is
    located, the text read from it is the empty string, and, located once
    more, the 'value' attribute read from it is the empty string.  It fails
    in every other case: a text or a value that is not empty, an attribute
    that is not there, a null handle, a query that raises. *)
Theorem element_is_blank_iff element w :
  (succeeds element_is_blank element w <->
     exists webelement w1 w2 webelement' w3 w4,
       element_call element w = (Got (Some webelement), w1)
       /\ text webelement w1 = (Got "", w2)
       /\ element_call element w2 = (Got (Some webelement'), w3)
       /\ get_attribute webelement' "value" w3 = (Got (Some ""), w4))
  /\ (fails element_is_blank element w <->
        ~ exists webelement w1 w2 webelement' w3 w4,
            element_call element w = (Got (Some webelement), w1)
            /\ text webelement w1 = (Got "", w2)
            /\ element_call element w2 = (Got (Some webelement'), w3)
            /\ get_attribute webelement' "value" w3 = (Got (Some ""), w4)).
Proof.
  assert (succeeds element_is_blank element w <->
     exists webelement w1 w2 webelement' w3 w4,
       element_call element w = (Got (Some webelement), w1)
       /\ text webelement w1 = (Got "", w2)
       /\ element_call element w2 = (Got (Some webelement'), w3)
       /\ get_attribute webelement' "value" w3 = (Got (Some ""), w4))
    as Hiff.
  { unfold element_is_blank. rewrite and_succeeds.
    unfold element_has_exact_text, element_has_text, element_has_value.
    cbn [value element_has_attribute].
    rewrite raise_if_not_actual_state, !raise_if_not_actual_succeeds.
    split.
    - intros [(t & w2 & Ht & Heq) (v & w4 & Hv & Heqv)].
      apply bool_decide_eq_true in Heq, Heqv. subst t v.
      rewrite Ht in Hv. cbn [snd] in Hv.
      apply element_text_iff in Ht as (we & w1 & Hcall & Htext).
      apply attribute_value_iff in Hv as (we' & w3 & Hcall' & Hattr).
      by exists we, w1, w2, we', w3, w4.
    - intros (we & w1 & w2 & we' & w3 & w4 & Hcall & Htext & Hcall' & Hattr).
      assert (element_text element w = (Got "", w2)) as Ht.
      { apply element_text_iff. by exists we, w1. }
      assert (attribute_value "value" element w2 = (Got (Some ""), w4))
        as Hv.
      { apply attribute_value_iff. by exists we', w3. }
      rewrite Ht. cbn [snd]. split.
      + exists "", w2. split; [done|]. by apply bool_decide_eq_true.
      + exists (Some ""), w4. split; [done|]. by apply bool_decide_eq_true. }
  split; [exact Hiff|]. by rewrite fails_iff_not_succeeds, Hiff.
Qed.

(** C5: a condition built by [raise_if_not_actual] whose accessor raises
    does not raise itself: it fails, and the failure carries the
    description of the condition and the error of the accessor.  For
    [element_has_value expected] the description is
    "has attribute 'value' with value '<expected>'".  A mismatch of the
    predicate is reported in the same way, as a failure under the same
    description. *)
Theorem element_has_value_access_failure expected element w error w1 :
  attribute_value "value" element w = (Raised error, w1) ->
  let description :=
    "has attribute 'value' with value '" +:+ expected +:+ "'" in
  check (element_has_value expected) element w =
    (Failed (AccessFailure description error), w1)
  /\ str (element_has_value expected) = description
  /\ (forall w' actual w1',
        attribute_value "value" element w' = (Got actual, w1') ->
        actual <> Some expected ->
        check (element_has_value expected) element w' =
          (Failed (PredicateMismatch description (str actual)), w1'))
  /\ (forall (S R : Type) (str_R : Str R) d (accessor : S -> Driver W R)
             predicate (s : S) w' error' w1',
        accessor s w' = (Raised error', w1') ->
        check (raise_if_not_actual d accessor predicate) s w' =
          (Failed (AccessFailure d error'), w1')).
Proof.
  intros Haccess description. split; [|split; [|split]].
  - unfold element_has_value. cbn [value element_has_attribute].
    cbn [check raise_if_not_actual]. by rewrite Haccess.
  - reflexivity.
  - intros w' actual w1' Hgot Hne.
    unfold element_has_value. cbn [value element_has_attribute].
    cbn [check raise_if_not_actual]. rewrite Hgot.
    unfold equals, py_eq, py_eq_optional.
    by rewrite bool_decide_eq_false_2.
  - intros S R str_R d accessor predicate s w' error' w1' Hraised.
    cbn [check raise_if_not_actual]. by rewrite Hraised.
Qed.

(** The texts read from a list of elements of a page that answers the
    same way at every query: the texts of the displayed ones, in order. *)
Lemma texts_if_displayed_steady (webelements : list WebElement)
    (shown : WebElement -> bool) (content : WebElement -> string) w :
  (forall webelement w', webelement ∈ webelements ->
     fst (is_displayed webelement w') = Got (shown webelement)) ->
  (forall webelement w', webelement ∈ webelements ->
     shown webelement = true ->
     fst (text webelement w') = Got (content webelement)) ->
  fst (texts_if_displayed webelements w) =
    Got (map content (List.filter shown webelements)).
Proof.
  revert w.
  induction webelements as [|webelement rest IH]; intros w Hshown Htext.
  - reflexivity.
  - assert (Hrest : forall w', fst (texts_if_displayed rest w') =
              Got (map content (List.filter shown rest))).
    { intros w'. apply IH.
      - intros we w'' Hin. apply Hshown. by right.
      - intros we w'' Hin. apply Htext. by right. }
    cbn [texts_if_displayed List.filter]. unfold bind.
    specialize (Hshown webelement w (list_elem_of_here _ _)).
    destruct (is_displayed webelement w) as [r w1]. simpl in Hshown.
    subst r. destruct (shown webelement) eqn:Hs.
    + specialize (Htext webelement w1 (list_elem_of_here _ _) Hs).
      destruct (text webelement w1) as [r w2]. simpl in Htext. subst r.
      specialize (Hrest w2).
      destruct (texts_if_displayed rest w2) as [r w3]. simpl in Hrest.
      by subst r.
    + apply Hrest.
Qed.

(** C6: on a page that answers the same way at every query, both
    factories compare the texts of the displayed elements of the
    collection, in their order, with the expected texts, position by
    position: [collection_has_exact_texts] succeeds exactly when the two
    lists have the same length and equal texts at every position,
    [collection_has_texts] exactly when at every position the expected
    text occurs in the text displayed. *)
Theorem collection_texts_of_displayed {Any} (self : Any)
    (expected : list string) collection w w0
    (webelements : list WebElement)
    (shown : WebElement -> bool) (content : WebElement -> string) :
  collection_call collection w = (Got webelements, w0) ->
  (forall webelement w', webelement ∈ webelements ->
     fst (is_displayed webelement w') = Got (shown webelement)) ->
  (forall webelement w', webelement ∈ webelements ->
     shown webelement = true ->
     fst (text webelement w') = Got (content webelement)) ->
  let actual := map content (List.filter shown webelements) in
  fst (visible_texts collection w) = Got actual
  /\ (succeeds (collection_has_exact_texts self expected) collection w <->
        length actual = length expected
        /\ Forall2 (fun a e => a = e) actual expected)
  /\ (succeeds (collection_has_texts self expected) collection w <->
        Forall2 (fun a e => occurs_in e a) actual expected).
Proof.
  intros Hcall Hshown Htext actual.
  assert (Hvisible : fst (visible_texts collection w) = Got actual).
  { unfold visible_texts, bind. rewrite Hcall.
    by apply texts_if_displayed_steady. }
  split; [exact Hvisible|].
  destruct (visible_texts collection w) as [r w1] eqn:Hrun.
  simpl in Hvisible. subst r.
  unfold collection_has_exact_texts, collection_has_texts.
  rewrite !raise_if_not_actual_succeeds, Hrun. split.
  - rewrite <- equals_to_list_iff. split.
    + by intros (a & w' & [= <- <-] & Ha).
    + intros Ha. eauto.
  - rewrite <- equals_by_contains_to_list_iff. split.
    + by intros (a & w' & [= <- <-] & Ha).
    + intros Ha. eauto.
Qed.

(** C7: without [described_as] a negation is described by "not "
    followed by the description of the condition it negates, and with
    [described_as] by that string; so [element_is_disabled] is described
    as "not is enabled" and [element_is_hidden] as "is hidden". *)
Theorem negate_description {S} `{!Str S} (c : Condition W S) described_as :
  description (negate c None) = "not " +:+ description c
  /\ description (negate c (Some described_as)) = described_as
  /\ str (negate c None) = "not " +:+ str c
  /\ description element_is_disabled = "not is enabled"
  /\ description element_is_hidden = "is hidden".
Proof. repeat split. Qed.

(** C8: both factories ignore their first parameter [self]: the
    condition they build compares with, and is described by, the
    expected texts alone.  Called with positional arguments only, the
    first argument is bound to [self], so the condition is the one for
    the remaining arguments, whatever the first one was. *)
Theorem texts_factories_ignore_self {Any} (self self' : Any)
    (expected : list string) (first first' : string) :
  collection_has_texts self expected =
    raise_if_not_actual ("has texts " +:+ tuple_repr expected)
      visible_texts (equals_by_contains_to_list expected)
  /\ collection_has_exact_texts self expected =
    raise_if_not_actual ("has exact texts " +:+ tuple_repr expected)
      visible_texts (equals_to_list expected)
  /\ collection_has_texts self expected =
       collection_has_texts self' expected
  /\ collection_has_exact_texts self expected =
       collection_has_exact_texts self' expected
  /\ call_positionally collection_has_texts (first :: expected) =
       Some (collection_has_texts first' expected)
  /\ call_positionally collection_has_exact_texts (first :: expected) =
       Some (collection_has_exact_texts first' expected)
  /\ description (collection_has_texts first expected) =
       "has texts " +:+ tuple_repr expected
  /\ description (collection_has_exact_texts first expected) =
       "has exact texts " +:+ tuple_repr expected.
Proof. repeat split. Qed.

(** C9: the descriptions built by [browser_has_url] and
    [browser_has_title], and so by their containing variants, put " + "
    between the phrase and the expected value, where the factories for
    texts, sizes and numbers of tabs put one space. *)
Theorem browser_descriptions_have_plus expected (n : Z) phrase by_ by_n :
  description (browser_has_url expected phrase by_) =
    phrase +:+ " + " +:+ expected
  /\ description (browser_has_title expected phrase by_) =
    phrase +:+ " + " +:+ expected
  /\ description (browser_has_url' expected) = "has url + " +:+ expected
  /\ description (browser_has_url_containing expected) =
    "has url containing + " +:+ expected
  /\ description (browser_has_title' expected) =
    "has title + " +:+ expected
  /\ description (browser_has_title_containing expected) =
    "has title containing + " +:+ expected
  /\ description (browser_has_url' "x") = "has url + x"
  /\ description (element_has_text expected phrase by_) =
    phrase +:+ " " +:+ expected
  /\ description (element_has_text' expected) = "has text " +:+ expected
  /\ description (element_has_exact_text expected) =
    "has exact text " +:+ expected
  /\ description (collection_has_size n phrase by_n) =
    phrase +:+ " " +:+ str n
  /\ description (collection_has_size' n) = "has size " +:+ str n
  /\ description (browser_has_tabs_number n phrase by_n) =
    phrase +:+ " " +:+ str n
  /\ description (browser_has_tabs_number' n) =
    "has tabs number " +:+ str n
  /\ description (element_has_attribute expected) =
    "has attribute " +:+ expected.
Proof. repeat split. Qed.

(** The evaluation of [element_is_present]: one call of the handle. *)
Lemma element_is_present_check element w :
  check element_is_present element w =
    match element_call element w with
    | (Got (Some _), w1) => (Passed, w1)
    | (Got None, w1) =>
        (Failed (PredicateMismatch "is visible" (str element)), w1)
    | (Raised error, w1) => (Failed (AccessFailure "is visible" error), w1)
    end.
Proof.
  cbn [check element_is_present raise_if_not]. unfold bind, ret.
  by destruct (element_call element w) as [[[webelement|]|error] w1].
Qed.

(** C10: [element_is_present] is described as "is visible", the very
    description of [element_is_visible], while its check asks for the
    handle only: it succeeds exactly when calling the element gives a
    handle that is not null, and it makes no further query.  The default
    description of [element_is_absent] is the negation of "is visible". *)
Theorem element_is_present_description element w :
  description element_is_present = "is visible"
  /\ description element_is_present = description element_is_visible
  /\ (succeeds element_is_present element w <->
        exists webelement w1,
          element_call element w = (Got (Some webelement), w1))
  /\ snd (check element_is_present element w) =
       snd (element_call element w)
  /\ description element_is_absent = "not is visible"
  /\ description element_is_absent =
       description (as_not element_is_visible None).
Proof.
  split; [reflexivity|]. split; [reflexivity|].
  split; [|split; [|split; reflexivity]].
  - unfold succeeds. rewrite element_is_present_check.
    destruct (element_call element w) as [[[webelement|]|error] w1];
      simpl.
    + split; eauto.
    + split; [discriminate | by intros (? & ? & ?)].
    + split; [discriminate | by intros (? & ? & ?)].
  - rewrite element_is_present_check.
    by destruct (element_call element w) as [[[webelement|]|error] w1].
Qed.

End FactoryFacts.

(* ===================================================================== *)
(** ** The theorems at work on the stub *)
(* ===================================================================== *)

Section OnTheStub.
Import wait predicate condition stub.

(** A conjunction whose first part fails leaves the counting accessor of
    its second part at zero calls; evaluated on its own, or first, the
    accessor counts one call. *)
Lemma and_short_circuits_witness :
  fails never_met "subject" 0
  /\ check (and_ never_met counted_condition) "subject" 0 =
       check never_met "subject" 0.
Proof.
  split.
  - eexists. reflexivity.
  - apply and_short_circuits. eexists. reflexivity.
Defined.

Example counting_accessor_not_called :
  snd (check (and_ never_met counted_condition) "subject" 0) = 0
  /\ snd (check counted_condition "subject" 0) = 1
  /\ snd (check (and_ counted_condition never_met) "subject" 0) = 1.
Proof. repeat split. Qed.

(** The value of a detached element cannot be read. *)
Lemma element_has_value_access_failure_witness :
  attribute_value "value" (Got (Some gone)) 0 =
    (Raised "stale element reference", 2)
  /\ check (element_has_value "abc") (Got (Some gone)) 0 =
       (Failed (AccessFailure "has attribute 'value' with value 'abc'"
                  "stale element reference"), 2).
Proof.
  split.
  - reflexivity.
  - exact (proj1 (element_has_value_access_failure
                    "abc" (Got (Some gone)) 0 _ 2 eq_refl)).
Defined.

(** Three elements, the second one not displayed. *)
Lemma collection_texts_of_displayed_witness :
  let collection :=
    page [item true "alpha"; item false "hidden"; item true "beta"] in
  collection_call collection 0 =
    (Got [item true "alpha"; item false "hidden"; item true "beta"], 1)
  /\ fst (visible_texts collection 0) = Got ["alpha"; "beta"]
  /\ (succeeds (collection_has_exact_texts "self" ["alpha"; "beta"])
        collection 0 <->
      length ["alpha"; "beta"] = length ["alpha"; "beta"]
      /\ Forall2 (fun a e : string => a = e)
           ["alpha"; "beta"] ["alpha"; "beta"])
  /\ (succeeds (collection_has_texts "self" ["alpha"; "beta"])
        collection 0 <->
      Forall2 (fun a e => occurs_in e a)
        ["alpha"; "beta"] ["alpha"; "beta"]).
Proof.
  intros collection. split; [reflexivity|].
  refine (collection_texts_of_displayed "self" _ collection 0 1
            [item true "alpha"; item false "hidden"; item true "beta"]
            displayed inner_text eq_refl _ _).
  - intros webelement w' Hin.
    repeat (apply elem_of_cons in Hin as [->|Hin]; [reflexivity|]).
    by apply elem_of_nil in Hin.
  - intros webelement w' Hin _.
    repeat (apply elem_of_cons in Hin as [->|Hin]; [reflexivity|]).
    by apply elem_of_nil in Hin.
Defined.

Example collection_texts_on_the_page :
  let collection :=
    page [item true "alpha"; item false "hidden"; item true "beta"] in
  passed (fst (check (collection_has_exact_texts "self" ["alpha"; "beta"])
                 collection 0)) = true
  /\ passed (fst (check (collection_has_exact_texts "self"
                           ["alpha"; "hidden"; "beta"])
                    collection 0)) = false
  /\ passed (fst (check (collection_has_texts "self" ["alp"; "et"])
                    collection 0)) = true
  /\ passed (fst (check (collection_has_exact_texts "self" ["alp"; "et"])
                    collection 0)) = false.
Proof. vm_compute. repeat split. Qed.

(** All the expected texts passed positionally: the first one is lost. *)
Example texts_called_positionally :
  let collection := page [item true "alpha"; item true "beta"] in
  (description <$> call_positionally collection_has_exact_texts
                     ["alpha"; "beta"]) = Some "has exact texts ('beta',)"
  /\ ((fun c => passed (fst (check c collection 0))) <$>
        call_positionally collection_has_exact_texts ["alpha"; "beta"]) =
       Some false
  /\ ((fun c => passed (fst (check c collection 0))) <$>
        call_positionally collection_has_exact_texts
          ["anything"; "alpha"; "beta"]) = Some true.
Proof. vm_compute. repeat split. Qed.

(** A blank field is blank; a field with a text is not, nor is one with
    a value, nor an element that cannot be located. *)
Lemma element_is_blank_iff_witness :
  succeeds element_is_blank (Got (Some (input "" ""))) 0
  /\ fails element_is_blank (Got (Some (input "" "t"))) 0
  /\ fails element_is_blank (Got (Some (input "v" ""))) 0
  /\ fails element_is_blank (Raised "no such element") 0.
Proof.
  split; [|split; [|split]].
  - apply (proj1 (element_is_blank_iff _ 0)).
    by exists (input "" ""), 1, 2, (input "" ""), 3, 4.
  - apply (proj2 (element_is_blank_iff _ 0)).
    intros (we & w1 & w2 & we' & w3 & w4 & Hcall & Htext & _).
    injection Hcall as <- <-. discriminate Htext.
  - apply (proj2 (element_is_blank_iff _ 0)).
    intros (we & w1 & w2 & we' & w3 & w4 & Hcall & Htext & Hcall' & Hattr).
    injection Hcall as <- <-. injection Htext as <-.
    injection Hcall' as <- <-. discriminate Hattr.
  - apply (proj2 (element_is_blank_iff _ 0)).
    intros (we & w1 & w2 & we' & w3 & w4 & Hcall & _). discriminate Hcall.
Defined.

(** A field that is blank, and fields that are not. *)
Example element_is_blank_on_inputs :
  passed (fst (check element_is_blank (Got (Some (input "" ""))) 0)) = true
  /\ passed (fst (check element_is_blank (Got (Some (input "v" ""))) 0))
     = false
  /\ passed (fst (check element_is_blank (Got (Some (input "" "t"))) 0))
     = false
  /\ passed (fst (check element_is_blank (Got (Some (item true ""))) 0))
     = false
  /\ snd (check element_is_blank (Got (Some (input "" "t"))) 0) = 2.
Proof. vm_compute. repeat split. Qed.

(** An element that is there and not displayed is present, not visible. *)
Example present_is_not_visible :
  let element := Got (Some (item false "")) in
  passed (fst (check element_is_present element 0)) = true
  /\ passed (fst (check element_is_visible element 0)) = false
  /\ passed (fst (check element_is_absent (Got None) 0)) = true.
Proof. vm_compute. repeat split. Qed.

End OnTheStub.


(* ===================================================================== *)
(** ** Conditions on one element *)
(* ===================================================================== *)

Section ElementFacts.
Import wait predicate condition.
Context {W : Type} `{!DriverLayer W} `{!Repr string}.
Implicit Types (w : W) (element : SeleneElement) (expected name : string).

Lemma append_empty_r (s : string) : s +:+ "" = s.
Proof.
  induction s as [|c s IH]; [done|].
  change (String c (s +:+ "") = String c s). by rewrite IH.
Qed.

Lemma occurs_in_refl expected : occurs_in expected expected.
Proof. exists "", "". simpl. by rewrite append_empty_r. Qed.

Lemma occurs_in_empty actual : occurs_in "" actual.
Proof. by exists "", actual. Qed.

(** The evaluation of a condition built from a predicate over the
    subject. *)
Lemma raise_if_not_succeeds {S} `{!Str S} description
    (predicate_over_subject : S -> Driver W bool) (s : S) w :
  succeeds (raise_if_not description predicate_over_subject) s w <->
  exists w1, predicate_over_subject s w = (Got true, w1).
Proof.
  unfold succeeds. simpl.
  destruct (predicate_over_subject s w) as [[[|]|error] w1]; simpl.
  - split; eauto.
  - split; [discriminate | by intros [? ?]].
  - split; [discriminate | by intros [? ?]].
Qed.

Lemma element_is_visible_iff element w :
  succeeds element_is_visible element w <->
  exists webelement w1 w2,
    element_call element w = (Got (Some webelement), w1)
    /\ is_displayed webelement w1 = (Got true, w2).
Proof.
  unfold element_is_visible. rewrite raise_if_not_succeeds.
  split.
  - intros [w2 H]. apply located_query in H as (we & w1 & Hcall & Hq).
    by exists we, w1, w2.
  - intros (we & w1 & w2 & Hcall & Hq). exists w2. apply located_query.
    by exists we, w1.
Qed.

Lemma element_is_enabled_iff element w :
  succeeds element_is_enabled element w <->
  exists webelement w1 w2,
    element_call element w = (Got (Some webelement), w1)
    /\ is_enabled webelement w1 = (Got true, w2).
Proof.
  unfold element_is_enabled. rewrite raise_if_not_succeeds.
  split.
  - intros [w2 H]. apply located_query in H as (we & w1 & Hcall & Hq).
    by exists we, w1, w2.
  - intros (we & w1 & w2 & Hcall & Hq). exists w2. apply located_query.
    by exists we, w1.
Qed.

Lemma element_is_present_iff element w :
  succeeds element_is_present element w <->
  exists webelement w1, element_call element w = (Got (Some webelement), w1).
Proof.
  unfold succeeds. rewrite element_is_present_check.
  destruct (element_call element w) as [[[webelement|]|error] w1]; simpl.
  - split; eauto.
  - split; [discriminate | by intros (? & ? & ?)].
  - split; [discriminate | by intros (? & ? & ?)].
Qed.

Lemma element_has_text_iff expected phrase by_ element w :
  succeeds (element_has_text expected phrase by_) element w <->
  exists actual w1,
    element_text element w = (Got actual, w1) /\ by_ expected actual = true.
Proof. unfold element_has_text. apply raise_if_not_actual_succeeds. Qed.

(** X1: an element that has the exact text has the text: where
    [element_has_exact_text expected] succeeds, so does
    [element_has_text expected] with its default comparison. *)
Theorem exact_text_implies_text expected element w :
  succeeds (element_has_exact_text expected) element w ->
  succeeds (element_has_text' expected) element w.
Proof.
  unfold element_has_exact_text, element_has_text'.
  rewrite !element_has_text_iff.
  intros (actual & w1 & Hread & Heq). exists actual, w1. split; [done|].
  apply bool_decide_eq_true in Heq. subst actual.
  apply is_substring_iff, occurs_in_refl.
Qed.

(** X2: with the empty string expected, [element_has_text] asks nothing of
    the text: it succeeds exactly when the element is located and its text
    is read, whatever the text is. *)
Theorem has_text_empty_iff_readable element w :
  succeeds (element_has_text' "") element w <->
  exists webelement w1 actual w2,
    element_call element w = (Got (Some webelement), w1)
    /\ text webelement w1 = (Got actual, w2).
Proof.
  unfold element_has_text'. rewrite element_has_text_iff. split.
  - intros (actual & w2 & Hread & _).
    apply element_text_iff in Hread as (we & w1 & Hcall & Htext).
    by exists we, w1, actual, w2.
  - intros (we & w1 & actual & w2 & Hcall & Htext). exists actual, w2. split.
    + apply element_text_iff. by exists we, w1.
    + apply is_substring_iff, occurs_in_empty.
Qed.

(** X3: when the call of the element raises, the three negated conditions
    succeed: an element that cannot be reached counts as hidden, as
    disabled and as absent, and nothing more is asked of the driver. *)
Theorem negations_pass_on_unreachable_element element w error w1 :
  element_call element w = (Raised error, w1) ->
  check element_is_hidden element w = (Passed, w1)
  /\ check element_is_disabled element w = (Passed, w1)
  /\ check element_is_absent element w = (Passed, w1).
Proof.
  intros Hcall.
  unfold element_is_hidden, element_is_disabled, element_is_absent, as_not.
  cbn [check negate element_is_visible element_is_enabled element_is_present
       raise_if_not].
  unfold bind. by rewrite Hcall.
Qed.

(** X4: a visible element is present, and so is an enabled one; neither is
    absent. *)
Theorem visible_or_enabled_implies_present element w :
  succeeds element_is_visible element w
  \/ succeeds element_is_enabled element w ->
  succeeds element_is_present element w
  /\ fails element_is_absent element w.
Proof.
  intros H.
  assert (succeeds element_is_present element w) as Hpresent.
  { apply element_is_present_iff.
    destruct H as [H|H].
    - apply element_is_visible_iff in H as (we & w1 & _ & Hcall & _). eauto.
    - apply element_is_enabled_iff in H as (we & w1 & _ & Hcall & _). eauto. }
  split; [done|].
  apply fails_iff_not_succeeds. unfold element_is_absent, as_not.
  rewrite negate_succeeds, fails_iff_not_succeeds. tauto.
Qed.

(** X5: an absent element is hidden and disabled. *)
Theorem absent_implies_hidden_and_disabled element w :
  succeeds element_is_absent element w ->
  succeeds element_is_hidden element w
  /\ succeeds element_is_disabled element w.
Proof.
  unfold element_is_absent, element_is_hidden, element_is_disabled, as_not.
  rewrite !negate_succeeds, !fails_iff_not_succeeds.
  rewrite element_is_present_iff, element_is_visible_iff,
    element_is_enabled_iff.
  intros Habsent. split; intros (we & w1 & _ & Hcall & _); eauto.
Qed.

End ElementFacts.

(* ===================================================================== *)
(** ** Conditions on attributes *)
(* ===================================================================== *)

Section AttributeFacts.
Import wait predicate condition.
Context {W : Type} `{!DriverLayer W} `{!Repr string}.
Implicit Types (w : W) (element : SeleneElement) (expected name : string)
  (collection : SeleneCollection).

Lemma attribute_value_is_iff name expected element w :
  succeeds (value (element_has_attribute name) expected) element w <->
  exists w1, attribute_value name element w = (Got (Some expected), w1).
Proof.
  cbn [value element_has_attribute]. rewrite raise_if_not_actual_succeeds.
  split.
  - intros (actual & w1 & Hread & Heq).
    apply bool_decide_eq_true in Heq. subst actual. eauto.
  - intros [w1 Hread]. exists (Some expected), w1. split; [done|].
    by apply bool_decide_eq_true.
Qed.

Lemma attribute_value_containing_iff name expected element w :
  succeeds (value_containing (element_has_attribute name) expected)
    element w <->
  exists actual w1,
    attribute_value name element w = (Got (Some actual), w1)
    /\ occurs_in expected actual.
Proof.
  cbn [value_containing element_has_attribute].
  rewrite raise_if_not_actual_succeeds. split.
  - intros ([actual|] & w1 & Hread & Hin); [|discriminate].
    exists actual, w1. split; [done|]. by apply is_substring_iff.
  - intros (actual & w1 & Hread & Hin). exists (Some actual), w1.
    split; [done|]. by apply is_substring_iff.
Qed.

Lemma element_has_attribute_iff name element w :
  succeeds (element_has_attribute name) element w <->
  exists actual w1,
    attribute_value name element w = (Got (Some actual), w1)
    /\ actual <> "".
Proof.
  transitivity
    (succeeds (raise_if_not_actual ("has attribute " +:+ name)
                 (attribute_value name) is_truthy) element w);
    [reflexivity|].
  rewrite raise_if_not_actual_succeeds. split.
  - intros ([actual|] & w1 & Hread & Htruthy); [|discriminate].
    exists actual, w1. split; [done|].
    apply negb_true_iff, bool_decide_eq_false in Htruthy. done.
  - intros (actual & w1 & Hread & Hne). exists (Some actual), w1.
    split; [done|]. by apply negb_true_iff, bool_decide_eq_false.
Qed.

(** X7: an attribute that has the value has a value containing it. *)
Theorem value_implies_value_containing name expected element w :
  succeeds (value (element_has_attribute name) expected) element w ->
  succeeds (value_containing (element_has_attribute name) expected)
    element w.
Proof.
  rewrite attribute_value_is_iff, attribute_value_containing_iff.
  intros [w1 Hread]. exists expected, w1. split; [done|].
  apply occurs_in_refl.
Qed.

(** X8: with the empty string expected, [value_containing] succeeds
    exactly when the element is located and the attribute read from it is
    there, whatever its value; when the attribute is missing the condition
    fails with a mismatch on the actual value [None], it does not raise. *)
Theorem value_containing_empty_iff_there name element w :
  (succeeds (value_containing (element_has_attribute name) "") element w <->
     exists webelement w1 actual w2,
       element_call element w = (Got (Some webelement), w1)
       /\ get_attribute webelement name w1 = (Got (Some actual), w2))
  /\ (forall webelement w1 w2,
        element_call element w = (Got (Some webelement), w1) ->
        get_attribute webelement name w1 = (Got None, w2) ->
        check (value_containing (element_has_attribute name) "") element w =
          (Failed (PredicateMismatch
                     ("has attribute '" +:+ name
                        +:+ "' with value containing ''")
                     "None"), w2)).
Proof.
  split.
  - rewrite attribute_value_containing_iff. split.
    + intros (actual & w2 & Hread & _).
      apply attribute_value_iff in Hread as (we & w1 & Hcall & Hattr).
      by exists we, w1, actual, w2.
    + intros (we & w1 & actual & w2 & Hcall & Hattr). exists actual, w2.
      split; [|apply occurs_in_empty].
      apply attribute_value_iff. by exists we, w1.
  - intros we w1 w2 Hcall Hattr.
    assert (attribute_value name element w = (Got None, w2)) as Hread.
    { apply attribute_value_iff. by exists we, w1. }
    cbn [value_containing element_has_attribute check raise_if_not_actual].
    by rewrite Hread.
Qed.

(** X9: where [element_has_value expected] succeeds,
    [element_has_attribute "value"] succeeds exactly when [expected] is not
    the empty string: an element with the value "" has the value "" and
    has no attribute 'value'. *)
Theorem has_value_vs_has_attribute expected element w :
  succeeds (element_has_value expected) element w ->
  (succeeds (element_has_attribute "value") element w <-> expected <> "").
Proof.
  unfold element_has_value.
  rewrite attribute_value_is_iff, element_has_attribute_iff.
  intros [w1 Hread]. rewrite Hread. split.
  - by intros (actual & w1' & [= <- <-] & Hne).
  - intros Hne. eauto.
Qed.

(** The attributes read from a list of elements of a page that answers the
    same way at every query. *)
Lemma get_attributes_steady name (webelements : list WebElement)
    (attribute : WebElement -> option string) w :
  (forall webelement w', webelement ∈ webelements ->
     fst (get_attribute webelement name w') = Got (attribute webelement)) ->
  fst (get_attributes name webelements w) = Got (map attribute webelements).
Proof.
  revert w. induction webelements as [|webelement rest IH]; intros w Hattr.
  - reflexivity.
  - cbn [get_attributes map]. unfold bind.
    pose proof (Hattr webelement w (list_elem_of_here _ _)) as Hhead.
    destruct (get_attribute webelement name w) as [r w1]. simpl in Hhead.
    subst r.
    assert (fst (get_attributes name rest w1) = Got (map attribute rest))
      as Hrest.
    { apply IH. intros we w' Hin. apply Hattr. by right. }
    destruct (get_attributes name rest w1) as [r w2]. simpl in Hrest.
    by subst r.
Qed.

Lemma equals_to_list_optional_iff (expected : list string)
    (actual : list (option string)) :
  equals_to_list expected actual = true <-> actual = map Some expected.
Proof.
  unfold equals_to_list. rewrite list_compare_by_iff. split.
  - induction 1 as [|a e actual' expected' Hae _ IH]; [done|].
    apply bool_decide_eq_true in Hae. simpl. congruence.
  - intros ->. induction expected as [|e expected IH]; simpl.
    + constructor.
    + constructor; [by apply bool_decide_eq_true | done].
Qed.

(** X10: on a page that answers the same way at every query,
    [values expected] of [element_has_attribute name] succeeds exactly when
    the attributes of all the elements of the collection, displayed or
    not, are there and are the expected values, in order and in number. *)
Theorem attribute_values_of_all_elements name (expected : list string)
    collection w w0 (webelements : list WebElement)
    (attribute : WebElement -> option string) :
  collection_call collection w = (Got webelements, w0) ->
  (forall webelement w', webelement ∈ webelements ->
     fst (get_attribute webelement name w') = Got (attribute webelement)) ->
  (succeeds (values (element_has_attribute name) expected) collection w <->
     map attribute webelements = map Some expected).
Proof.
  intros Hcall Hattr.
  assert (fst (attribute_values name collection w) =
            Got (map attribute webelements)) as Hread.
  { unfold attribute_values, bind. rewrite Hcall.
    by apply get_attributes_steady. }
  cbn [values element_has_attribute]. rewrite raise_if_not_actual_succeeds.
  destruct (attribute_values name collection w) as [r w1].
  simpl in Hread. subst r. rewrite <- equals_to_list_optional_iff. split.
  - by intros (actual & w' & [= <- <-] & Heq).
  - intros Heq. eauto.
Qed.

(** X11: a collection whose attributes are the expected values has
    attributes containing them. *)
Theorem values_implies_values_containing name (expected : list string)
    collection w :
  succeeds (values (element_has_attribute name) expected) collection w ->
  succeeds (values_containing (element_has_attribute name) expected)
    collection w.
Proof.
  cbn [values values_containing element_has_attribute].
  rewrite !raise_if_not_actual_succeeds.
  intros (actual & w1 & Hread & Heq). exists actual, w1. split; [done|].
  apply equals_to_list_optional_iff in Heq. subst actual.
  unfold equals_by_contains_to_list. apply list_compare_by_iff.
  clear Hread. induction expected as [|e expected IH]; simpl.
  - constructor.
  - constructor; [|done]. apply is_substring_iff, occurs_in_refl.
Qed.

End AttributeFacts.

(* ===================================================================== *)
(** ** Conditions on collections *)
(* ===================================================================== *)

Section CollectionFacts.
Import wait predicate condition.
Context {W : Type} `{!DriverLayer W} `{!Repr string}.
Implicit Types (w : W) (collection : SeleneCollection) (n : Z).

Lemma collection_has_size_iff n phrase by_ collection w :
  succeeds (collection_has_size n phrase by_) collection w <->
  exists webelements w1,
    collection_call collection w = (Got webelements, w1)
    /\ by_ n (Z.of_nat (length webelements)) = true.
Proof.
  unfold collection_has_size. rewrite raise_if_not_actual_succeeds.
  unfold collection_size, bind, ret.
  destruct (collection_call collection w) as [[webelements|error] w1].
  - split.
    + intros (actual & w' & [= <- <-] & Hby). eauto.
    + intros (ws & w' & [= <- <-] & Hby). eauto.
  - split; [by intros (? & ? & ? & ?) | by intros (? & ? & ? & ?)].
Qed.

(** X12: of a collection that can be located, exactly one of "has size
    less than n", "has size n" and "has size greater than n" holds. *)
Theorem size_trichotomy n collection w webelements w1 :
  collection_call collection w = (Got webelements, w1) ->
  let less := succeeds (collection_has_size_less_than n) collection w in
  let same := succeeds (collection_has_size' n) collection w in
  let more := succeeds (collection_has_size_greater_than n) collection w in
  (less \/ same \/ more)
  /\ ~ (less /\ same) /\ ~ (same /\ more) /\ ~ (less /\ more).
Proof.
  intros Hcall.
  unfold collection_has_size_less_than, collection_has_size',
    collection_has_size_greater_than.
  cbv zeta. rewrite !collection_has_size_iff, Hcall.
  set (size := Z.of_nat (length webelements)).
  assert (forall by_ : Z -> Z -> bool,
    (exists ws w', (Got webelements, w1) = (Got ws, w')
        /\ by_ n (Z.of_nat (length ws)) = true) <-> by_ n size = true) as Hiff.
  { intros by_. split.
    - by intros (ws & w' & [= <- <-] & Hby).
    - intros Hby. eauto. }
  rewrite !Hiff. unfold is_less_than, equals, py_eq, py_eq_same,
    is_greater_than.
  rewrite !bool_decide_eq_true. lia.
Qed.

(** X13: "has size greater than or equal n" holds exactly when "has size
    n" or "has size greater than n" does, and likewise for "less than or
    equal"; when the collection cannot be located none of them holds. *)
Theorem size_or_equal_iff n collection w :
  (succeeds (collection_has_size_greater_than_or_equal n) collection w <->
     succeeds (collection_has_size' n) collection w
     \/ succeeds (collection_has_size_greater_than n) collection w)
  /\ (succeeds (collection_has_size_less_than_or_equal n) collection w <->
        succeeds (collection_has_size' n) collection w
        \/ succeeds (collection_has_size_less_than n) collection w).
Proof.
  unfold collection_has_size_greater_than_or_equal,
    collection_has_size_less_than_or_equal, collection_has_size_less_than,
    collection_has_size', collection_has_size_greater_than.
  rewrite !collection_has_size_iff.
  unfold is_less_than, equals, py_eq, py_eq_same, is_greater_than,
    is_greater_than_or_equal, is_less_than_or_equal.
  split; split.
  - intros (ws & w1 & Hcall & Hby). apply bool_decide_eq_true in Hby.
    destruct (decide (Z.of_nat (length ws) = n)) as [Heq|Hne].
    + left. exists ws, w1. split; [done|]. by apply bool_decide_eq_true.
    + right. exists ws, w1. split; [done|]. apply bool_decide_eq_true. lia.
  - intros [(ws & w1 & Hcall & Hby)|(ws & w1 & Hcall & Hby)];
      apply bool_decide_eq_true in Hby; exists ws, w1; (split; [done|]);
      apply bool_decide_eq_true; lia.
  - intros (ws & w1 & Hcall & Hby). apply bool_decide_eq_true in Hby.
    destruct (decide (Z.of_nat (length ws) = n)) as [Heq|Hne].
    + left. exists ws, w1. split; [done|]. by apply bool_decide_eq_true.
    + right. exists ws, w1. split; [done|]. apply bool_decide_eq_true. lia.
  - intros [(ws & w1 & Hcall & Hby)|(ws & w1 & Hcall & Hby)];
      apply bool_decide_eq_true in Hby; exists ws, w1; (split; [done|]);
      apply bool_decide_eq_true; lia.
Qed.

(** X14: no collection has a negative size: with [n] below zero "has size
    n", "has size less than n" and "has size less than or equal n" fail,
    and "has size greater than n" holds of every collection that can be
    located. *)
Theorem size_below_zero n collection w :
  (n < 0)%Z ->
  fails (collection_has_size' n) collection w
  /\ fails (collection_has_size_less_than n) collection w
  /\ fails (collection_has_size_less_than_or_equal n) collection w
  /\ (succeeds (collection_has_size_greater_than n) collection w <->
        exists webelements w1,
          collection_call collection w = (Got webelements, w1)).
Proof.
  intros Hneg. rewrite !fails_iff_not_succeeds.
  unfold collection_has_size_less_than_or_equal,
    collection_has_size_less_than, collection_has_size',
    collection_has_size_greater_than.
  rewrite !collection_has_size_iff.
  unfold is_less_than, equals, py_eq, py_eq_same, is_greater_than,
    is_less_than_or_equal.
  repeat split.
  - intros (ws & w1 & _ & Hby). apply bool_decide_eq_true in Hby. lia.
  - intros (ws & w1 & _ & Hby). apply bool_decide_eq_true in Hby. lia.
  - intros (ws & w1 & _ & Hby). apply bool_decide_eq_true in Hby. lia.
  - intros (ws & w1 & Hcall & _). eauto.
  - intros (ws & w1 & Hcall). exists ws, w1. split; [done|].
    apply bool_decide_eq_true. lia.
Qed.

(** X15: when the collection cannot be located, every size condition
    fails with the error of the call, under its own description, and
    nothing more is asked of the driver. *)
Theorem size_of_unreachable_collection n phrase by_ collection w error w1 :
  collection_call collection w = (Raised error, w1) ->
  check (collection_has_size n phrase by_) collection w =
    (Failed (AccessFailure (phrase +:+ " " +:+ str n) error), w1).
Proof.
  intros Hcall. cbn [check collection_has_size raise_if_not_actual].
  unfold collection_size, bind. by rewrite Hcall.
Qed.

Lemma collection_has_exact_texts_iff {Any} (self : Any)
    (expected : list string) collection w :
  succeeds (collection_has_exact_texts self expected) collection w <->
  exists w1, visible_texts collection w = (Got expected, w1).
Proof.
  unfold collection_has_exact_texts. rewrite raise_if_not_actual_succeeds.
  split.
  - intros (actual & w1 & Hread & Heq).
    apply equals_to_list_iff in Heq as [_ Heq].
    assert (actual = expected) as ->; [|eauto].
    clear Hread. induction Heq; congruence.
  - intros [w1 Hread]. exists expected, w1. split; [done|].
    apply equals_to_list_iff. split; [done|].
    clear Hread. induction expected; by constructor.
Qed.

(** X16: a collection that has the exact texts has the texts: where
    [collection_has_exact_texts] succeeds, so does [collection_has_texts]
    with the same expected texts. *)
Theorem exact_texts_implies_texts {Any} (self self' : Any)
    (expected : list string) collection w :
  succeeds (collection_has_exact_texts self expected) collection w ->
  succeeds (collection_has_texts self' expected) collection w.
Proof.
  rewrite collection_has_exact_texts_iff. intros [w1 Hread].
  unfold collection_has_texts. rewrite raise_if_not_actual_succeeds.
  exists expected, w1. split; [done|].
  apply equals_by_contains_to_list_iff.
  clear Hread. induction expected; constructor; [|done].
  apply occurs_in_refl.
Qed.

(** X17: on a page that answers the same way at every query, with no
    text expected [collection_has_exact_texts] succeeds exactly when no
    element of the collection is displayed. *)
Theorem exact_texts_of_nothing {Any} (self : Any) collection w w0
    (webelements : list WebElement)
    (shown : WebElement -> bool) (content : WebElement -> string) :
  collection_call collection w = (Got webelements, w0) ->
  (forall webelement w', webelement ∈ webelements ->
     fst (is_displayed webelement w') = Got (shown webelement)) ->
  (forall webelement w', webelement ∈ webelements ->
     shown webelement = true ->
     fst (text webelement w') = Got (content webelement)) ->
  (succeeds (collection_has_exact_texts self []) collection w <->
     forall webelement, webelement ∈ webelements -> shown webelement = false).
Proof.
  intros Hcall Hshown Htext.
  assert (fst (visible_texts collection w) =
            Got (map content (List.filter shown webelements))) as Hvisible.
  { unfold visible_texts, bind. rewrite Hcall.
    by apply texts_if_displayed_steady. }
  rewrite collection_has_exact_texts_iff.
  destruct (visible_texts collection w) as [r w1]. simpl in Hvisible.
  subst r. clear Hcall Hshown Htext.
  split.
  - intros [w' [= Hnil _]]. intros we Hin.
    destruct (shown we) eqn:Hs; [|done].
    assert (we ∈ List.filter shown webelements) as Hf.
    { apply list_elem_of_In, filter_In. split; [|done].
      by apply list_elem_of_In. }
    destruct (List.filter shown webelements); [|discriminate].
    by apply elem_of_nil in Hf.
  - intros Hnone. exists w1. do 2 f_equal.
    induction webelements as [|we rest IH]; [done|]. simpl.
    rewrite (Hnone we (list_elem_of_here _ _)). apply IH.
    intros we' Hin. apply Hnone. by right.
Qed.

(** One element whose display state cannot be read makes the reading of
    the texts raise, wherever it is in the list. *)
Lemma texts_if_displayed_raises (webelements : list WebElement)
    (stale : WebElement) w :
  stale ∈ webelements ->
  (forall w', exists error, fst (is_displayed stale w') = Raised error) ->
  exists error, fst (texts_if_displayed webelements w) = Raised error.
Proof.
  intros Hin Hstale. revert w.
  induction webelements as [|webelement rest IH]; intros w.
  - by apply elem_of_nil in Hin.
  - cbn [texts_if_displayed]. unfold bind.
    apply elem_of_cons in Hin as [<-|Hin].
    + destruct (Hstale w) as [error Herr].
      destruct (is_displayed stale w) as [r w1]. simpl in Herr. subst r.
      eauto.
    + specialize (IH Hin).
      destruct (is_displayed webelement w) as [[[|]|error] w1]; [| |eauto].
      * destruct (text webelement w1) as [[t|error] w2]; [|eauto].
        destruct (IH w2) as [error Herr].
        destruct (texts_if_displayed rest w2) as [r w3]. simpl in Herr.
        subst r. eauto.
      * apply IH.
Qed.

(** X18: one element of the collection whose display state cannot be
    read makes both text conditions fail, whatever texts are expected and
    whatever the other elements show. *)
Theorem texts_fail_on_stale_element {Any} (self : Any)
    (expected : list string) collection w w0
    (webelements : list WebElement) (stale : WebElement) :
  collection_call collection w = (Got webelements, w0) ->
  stale ∈ webelements ->
  (forall w', exists error, fst (is_displayed stale w') = Raised error) ->
  fails (collection_has_texts self expected) collection w
  /\ fails (collection_has_exact_texts self expected) collection w.
Proof.
  intros Hcall Hin Hstale.
  assert (exists error, fst (visible_texts collection w) = Raised error)
    as [error Herr].
  { unfold visible_texts, bind. rewrite Hcall.
    by apply texts_if_displayed_raises with stale. }
  unfold fails. cbn [check collection_has_texts collection_has_exact_texts
                     raise_if_not_actual].
  destruct (visible_texts collection w) as [r w1]. simpl in Herr. subst r.
  split; eexists; reflexivity.
Qed.

End CollectionFacts.

(* ===================================================================== *)
(** ** Conditions on the browser *)
(* ===================================================================== *)

Section BrowserFacts.
Import wait predicate condition.
Context {W : Type} `{!DriverLayer W} `{!Repr string}.
Implicit Types (w : W) (browser : SeleneDriver) (n : Z) (expected : string).

(** X19: a browser that has the url has a url containing it. *)
Theorem url_implies_url_containing expected browser w :
  succeeds (browser_has_url' expected) browser w ->
  succeeds (browser_has_url_containing expected) browser w.
Proof.
  unfold browser_has_url', browser_has_url_containing, browser_has_url.
  rewrite !raise_if_not_actual_succeeds.
  intros (actual & w1 & Hread & Heq). exists actual, w1. split; [done|].
  apply bool_decide_eq_true in Heq. subst actual.
  apply is_substring_iff, occurs_in_refl.
Qed.

(** X20: a browser that has the title has a title containing it. *)
Theorem title_implies_title_containing expected browser w :
  succeeds (browser_has_title' expected) browser w ->
  succeeds (browser_has_title_containing expected) browser w.
Proof.
  unfold browser_has_title', browser_has_title_containing, browser_has_title.
  rewrite !raise_if_not_actual_succeeds.
  intros (actual & w1 & Hread & Heq). exists actual, w1. split; [done|].
  apply bool_decide_eq_true in Heq. subst actual.
  apply is_substring_iff, occurs_in_refl.
Qed.

Lemma browser_has_tabs_number_iff n phrase by_ browser w :
  succeeds (browser_has_tabs_number n phrase by_) browser w <->
  exists handles w1,
    (let* webdriver := browser_call browser in window_handles webdriver) w
      = (Got handles, w1)
    /\ by_ n (Z.of_nat (length handles)) = true.
Proof.
  unfold browser_has_tabs_number. rewrite raise_if_not_actual_succeeds.
  unfold browser_tabs_number, bind, ret.
  destruct (browser_call browser w) as [[webdriver|error] w0].
  - destruct (window_handles webdriver w0) as [[handles|error] w1].
    + split.
      * intros (actual & w' & [= <- <-] & Hby). eauto.
      * intros (hs & w' & [= <- <-] & Hby). eauto.
    + split; [by intros (? & ? & ? & ?) | by intros (? & ? & ? & ?)].
  - split; [by intros (? & ? & ? & ?) | by intros (? & ? & ? & ?)].
Qed.

(** X21: "has tabs number greater than or equal n" holds exactly when
    "has tabs number n" or "has tabs number greater than n" does, and
    "less than or equal" exactly when "n" or "less than n" does. *)
Theorem tabs_number_or_equal_iff n browser w :
  (succeeds (browser_has_tabs_number_greater_than_or_equal n) browser w <->
     succeeds (browser_has_tabs_number' n) browser w
     \/ succeeds (browser_has_tabs_number_greater_than n) browser w)
  /\ (succeeds (browser_has_tabs_number_less_than_or_equal n) browser w <->
        succeeds (browser_has_tabs_number' n) browser w
        \/ succeeds (browser_has_tabs_number_less_than n) browser w).
Proof.
  unfold browser_has_tabs_number_greater_than_or_equal,
    browser_has_tabs_number_less_than_or_equal,
    browser_has_tabs_number_less_than, browser_has_tabs_number',
    browser_has_tabs_number_greater_than.
  rewrite !browser_has_tabs_number_iff.
  unfold is_less_than, equals, py_eq, py_eq_same, is_greater_than,
    is_greater_than_or_equal, is_less_than_or_equal.
  split; split.
  - intros (hs & w1 & Hread & Hby). apply bool_decide_eq_true in Hby.
    destruct (decide (Z.of_nat (length hs) = n)) as [Heq|Hne].
    + left. exists hs, w1. split; [done|]. by apply bool_decide_eq_true.
    + right. exists hs, w1. split; [done|]. apply bool_decide_eq_true. lia.
  - intros [(hs & w1 & Hread & Hby)|(hs & w1 & Hread & Hby)];
      apply bool_decide_eq_true in Hby; exists hs, w1; (split; [done|]);
      apply bool_decide_eq_true; lia.
  - intros (hs & w1 & Hread & Hby). apply bool_decide_eq_true in Hby.
    destruct (decide (Z.of_nat (length hs) = n)) as [Heq|Hne].
    + left. exists hs, w1. split; [done|]. by apply bool_decide_eq_true.
    + right. exists hs, w1. split; [done|]. apply bool_decide_eq_true. lia.
  - intros [(hs & w1 & Hread & Hby)|(hs & w1 & Hread & Hby)];
      apply bool_decide_eq_true in Hby; exists hs, w1; (split; [done|]);
      apply bool_decide_eq_true; lia.
Qed.

(** X22: the number of tabs is never below zero: "has tabs number less
    than n" fails for every [n] that is zero or less, and "has tabs number
    greater than or equal 0" holds whenever the window handles can be
    read. *)
Theorem tabs_number_not_below_zero n browser w :
  (n <= 0)%Z ->
  fails (browser_has_tabs_number_less_than n) browser w
  /\ (succeeds (browser_has_tabs_number_greater_than_or_equal n) browser w
      <-> exists handles w1,
            (let* webdriver := browser_call browser in
             window_handles webdriver) w = (Got handles, w1)).
Proof.
  intros Hn. rewrite fails_iff_not_succeeds.
  unfold browser_has_tabs_number_less_than,
    browser_has_tabs_number_greater_than_or_equal.
  rewrite !browser_has_tabs_number_iff.
  unfold is_less_than, is_greater_than_or_equal.
  split; [|split].
  - intros (hs & w1 & _ & Hby). apply bool_decide_eq_true in Hby. lia.
  - intros (hs & w1 & Hread & _). eauto.
  - intros (hs & w1 & Hread). exists hs, w1. split; [done|].
    apply bool_decide_eq_true. lia.
Qed.

End BrowserFacts.

(* ===================================================================== *)
(** ** The css class of an element *)
(* ===================================================================== *)

Section CssClassFacts.
Import wait predicate condition.
Context {W : Type} `{!DriverLayer W} `{!Repr string}.
Implicit Types (w : W) (element : SeleneElement) (expected : string).

Lemma append_assoc (s1 s2 s3 : string) :
  (s1 +:+ s2) +:+ s3 = s1 +:+ s2 +:+ s3.
Proof.
  induction s1 as [|c s1 IH]; [done|].
  change (String c ((s1 +:+ s2) +:+ s3) = String c (s1 +:+ s2 +:+ s3)).
  by rewrite IH.
Qed.

Lemma string_of_list_ascii_snoc (l : list ascii) (c : ascii) (s : string) :
  String.string_of_list_ascii (l ++ [c]) +:+ s =
  String.string_of_list_ascii l +:+ String c s.
Proof.
  induction l as [|c' l IH]; [done|].
  change (String c' (String.string_of_list_ascii (l ++ [c]) +:+ s) =
          String c' (String.string_of_list_ascii l +:+ String c s)).
  by rewrite IH.
Qed.

(** Every word that [split] finds is not empty, has no white space in it
    and occurs in the string that was split. *)
Lemma split_go_word (word : list ascii) (actual token : string) :
  Forall (fun c => is_space c = false) word ->
  token ∈ split_go word actual ->
  token <> ""
  /\ Forall (fun c => is_space c = false) (String.list_ascii_of_string token)
  /\ occurs_in token (String.string_of_list_ascii (rev word) +:+ actual).
Proof.
  revert word.
  induction actual as [|c rest IH]; intros word Hword Hin.
  - cbn [split_go] in Hin. destruct word as [|c0 word].
    + by apply elem_of_nil in Hin.
    + apply list_elem_of_singleton in Hin. subst token.
      split; [|split].
      * intros Hnil.
        apply (f_equal String.list_ascii_of_string) in Hnil.
        rewrite String.list_ascii_of_string_of_list_ascii in Hnil.
        simpl in Hnil. by destruct (rev word).
      * rewrite String.list_ascii_of_string_of_list_ascii.
        by apply Forall_rev.
      * exists "", "". done.
  - cbn [split_go] in Hin. destruct (is_space c) eqn:Hc.
    + assert (token ∈ split_go [] rest ->
              token <> ""
              /\ Forall (fun c => is_space c = false)
                   (String.list_ascii_of_string token)
              /\ occurs_in token
                   (String.string_of_list_ascii (rev word)
                      +:+ String c rest)) as Hlater.
      { intros Hin'. destruct (IH [] (Forall_nil_2 _) Hin')
          as (Hne & Hclean & before & after & Hrest).
        split; [done|]. split; [done|].
        exists (String.string_of_list_ascii (rev word) +:+ String c before),
          after.
        change (rest = before +:+ token +:+ after) in Hrest.
        rewrite Hrest, append_assoc. reflexivity. }
      destruct word as [|c0 word]; [by apply Hlater|].
      apply elem_of_cons in Hin as [->|Hin]; [|by apply Hlater].
      split; [|split].
      * intros Hnil.
        apply (f_equal String.list_ascii_of_string) in Hnil.
        rewrite String.list_ascii_of_string_of_list_ascii in Hnil.
        simpl in Hnil. by destruct (rev word).
      * rewrite String.list_ascii_of_string_of_list_ascii.
        by apply Forall_rev.
      * by exists "", (String c rest).
    + destruct (IH (c :: word)) as (Hne & Hclean & Hoccurs); [|done|].
      { by constructor. }
      split; [done|]. split; [done|].
      cbn [rev] in Hoccurs.
      by rewrite string_of_list_ascii_snoc in Hoccurs.
Qed.

Lemma includes_word_true (expected actual : string) :
  includes_word expected actual = true ->
  expected <> ""
  /\ Forall (fun c => is_space c = false)
       (String.list_ascii_of_string expected)
  /\ occurs_in expected actual.
Proof.
  unfold includes_word, split. intros Hin.
  apply bool_decide_eq_true in Hin.
  by apply (split_go_word [] actual expected (Forall_nil_2 _)) in Hin.
Qed.

Lemma element_has_css_class_iff expected element w :
  succeeds (element_has_css_class expected) element w <->
  exists actual w1,
    attribute_value "class" element w = (Got (Some actual), w1)
    /\ includes_word expected actual = true.
Proof.
  unfold element_has_css_class. rewrite raise_if_not_actual_succeeds. split.
  - intros ([actual|] & w1 & Hread & Hword); [eauto | discriminate].
  - intros (actual & w1 & Hread & Hword). by exists (Some actual), w1.
Qed.

(** X23: an element that has the css class has a 'class' attribute whose
    value contains the name of the class. *)
Theorem css_class_implies_class_containing expected element w :
  succeeds (element_has_css_class expected) element w ->
  succeeds (value_containing (element_has_attribute "class") expected)
    element w.
Proof.
  rewrite element_has_css_class_iff, attribute_value_containing_iff.
  intros (actual & w1 & Hread & Hword). exists actual, w1. split; [done|].
  by apply includes_word_true in Hword as (_ & _ & Hoccurs).
Qed.

(** X24: no element has a css class whose name has white space in it:
    asked for two classes at once, [element_has_css_class] fails. *)
Theorem css_class_one_word_only expected element w :
  Exists (fun c => is_space c = true)
    (String.list_ascii_of_string expected) ->
  fails (element_has_css_class expected) element w.
Proof.
  intros Hspace. apply fails_iff_not_succeeds.
  rewrite element_has_css_class_iff.
  intros (actual & w1 & _ & Hword).
  apply includes_word_true in Hword as (_ & Hclean & _).
  apply Exists_exists in Hspace as (c & Hin & Hc).
  rewrite Forall_forall in Hclean. specialize (Hclean c Hin). congruence.
Qed.

End CssClassFacts.

(* ===================================================================== *)
(** ** The further theorems at work on the stub *)
(* ===================================================================== *)

Section FurtherOnTheStub.
Import wait predicate condition stub.

Ltac among :=
  let Hin := fresh "Hin" in
  intros ? ? Hin;
  repeat (apply elem_of_cons in Hin as [->|Hin]; [reflexivity|]);
  by apply elem_of_nil in Hin.

Lemma exact_text_implies_text_witness :
  succeeds (element_has_exact_text "Save") (Got (Some (item true "Save"))) 0
  /\ succeeds (element_has_text' "Save") (Got (Some (item true "Save"))) 0.
Proof.
  split; [reflexivity|]. by apply exact_text_implies_text.
Defined.

Lemma has_text_empty_iff_readable_witness :
  succeeds (element_has_text' "") (Got (Some (item false "Save"))) 0
  /\ ~ succeeds (element_has_text' "") (Raised "no such element") 0
  /\ ~ succeeds (element_has_text' "") (Got (Some gone)) 0.
Proof.
  split; [|split].
  - apply (has_text_empty_iff_readable _ 0).
    by exists (item false "Save"), 1, "Save", 2.
  - intros H. apply (has_text_empty_iff_readable _ 0) in H
      as (we & w1 & actual & w2 & Hcall & _).
    discriminate Hcall.
  - intros H. apply (has_text_empty_iff_readable _ 0) in H
      as (we & w1 & actual & w2 & Hcall & Htext).
    injection Hcall as <- <-. discriminate Htext.
Defined.

Lemma negations_pass_on_unreachable_element_witness :
  let missing : @SeleneElement nat driver := Raised "no such element" in
  element_call missing 0 = (Raised "no such element", 1)
  /\ check element_is_hidden missing 0 = (Passed, 1)
  /\ check element_is_disabled missing 0 = (Passed, 1)
  /\ check element_is_absent missing 0 = (Passed, 1).
Proof.
  intros missing. split; [reflexivity|].
  by apply (negations_pass_on_unreachable_element (W:=nat)
           (DriverLayer0:=driver)
              missing 0 "no such element" 1).
Defined.

Lemma visible_or_enabled_implies_present_witness :
  succeeds element_is_enabled (Got (Some (item false "Save"))) 0
  /\ succeeds element_is_present (Got (Some (item false "Save"))) 0
  /\ fails element_is_absent (Got (Some (item false "Save"))) 0.
Proof.
  split; [reflexivity|].
  apply visible_or_enabled_implies_present. right. reflexivity.
Defined.

Lemma absent_implies_hidden_and_disabled_witness :
  succeeds element_is_absent (Got None) 0
  /\ succeeds element_is_hidden (Got None) 0
  /\ succeeds element_is_disabled (Got None) 0.
Proof.
  split; [reflexivity|]. by apply absent_implies_hidden_and_disabled.
Defined.

Lemma value_implies_value_containing_witness :
  succeeds (value (element_has_attribute "value") "abc")
    (Got (Some (input "abc" ""))) 0
  /\ succeeds (value_containing (element_has_attribute "value") "abc")
       (Got (Some (input "abc" ""))) 0.
Proof.
  split; [reflexivity|]. by apply value_implies_value_containing.
Defined.

Lemma value_containing_empty_iff_there_witness :
  succeeds (value_containing (element_has_attribute "value") "")
    (Got (Some (input "abc" ""))) 0
  /\ check (value_containing (element_has_attribute "value") "")
       (Got (Some (item true "Save"))) 0 =
     (Failed (PredicateMismatch
                "has attribute 'value' with value containing ''" "None"), 2).
Proof.
  split.
  - apply (proj1 (value_containing_empty_iff_there "value" _ 0)).
    by exists (input "abc" ""), 1, "abc", 2.
  - by apply (proj2 (value_containing_empty_iff_there (W:=nat)
                       (DriverLayer0:=driver) "value" _ 0)
                (item true "Save") 1 2).
Defined.

Lemma has_value_vs_has_attribute_witness :
  succeeds (element_has_value "") (Got (Some (input "" ""))) 0
  /\ (succeeds (element_has_attribute "value") (Got (Some (input "" ""))) 0
      <-> "" <> "").
Proof.
  split; [reflexivity|]. by apply has_value_vs_has_attribute.
Defined.

Lemma attribute_values_of_all_elements_witness :
  let fields := [input "a" ""; input "b" ""] in
  collection_call (page fields) 0 = (Got fields, 1)
  /\ (succeeds (values (element_has_attribute "value") ["a"; "b"])
        (page fields) 0 <->
      map (fun e => lookup "value" (attributes e)) fields =
        map Some ["a"; "b"]).
Proof.
  intros fields. split; [reflexivity|].
  apply (attribute_values_of_all_elements (W:=nat)
           (DriverLayer0:=driver) "value" ["a"; "b"] _
           0 1 fields (fun e => lookup "value" (attributes e)) eq_refl).
  among.
Defined.

Lemma values_implies_values_containing_witness :
  let fields := page [input "a" ""; input "b" ""] in
  succeeds (values (element_has_attribute "value") ["a"; "b"]) fields 0
  /\ succeeds (values_containing (element_has_attribute "value") ["a"; "b"])
       fields 0.
Proof.
  intros fields. split; [reflexivity|].
  by apply values_implies_values_containing.
Defined.

Lemma size_trichotomy_witness :
  let rows := [item true "a"; item false "b"] in
  collection_call (page rows) 0 = (Got rows, 1)
  /\ (succeeds (collection_has_size_less_than 2) (page rows) 0
      \/ succeeds (collection_has_size' 2) (page rows) 0
      \/ succeeds (collection_has_size_greater_than 2) (page rows) 0).
Proof.
  intros rows. split; [reflexivity|].
  exact (proj1 (size_trichotomy (W:=nat)
           (DriverLayer0:=driver) 2 _ 0 rows 1 eq_refl)).
Defined.

Lemma size_below_zero_witness :
  (-1 < 0)%Z
  /\ fails (collection_has_size_less_than_or_equal (-1))
       (page [item true "a"]) 0.
Proof.
  split; [reflexivity|].
  exact (proj1 (proj2 (proj2
           (size_below_zero (W:=nat)
           (DriverLayer0:=driver) (-1) _ 0 eq_refl)))).
Defined.

Lemma size_of_unreachable_collection_witness :
  let missing : @SeleneCollection nat driver :=
    Raised "no such elements" in
  collection_call missing 0 = (Raised "no such elements", 1)
  /\ check (collection_has_size_greater_than_or_equal 0) missing 0 =
     (Failed (AccessFailure "has size greater than or equal 0"
                "no such elements"), 1).
Proof.
  intros missing. split; [reflexivity|].
  exact (size_of_unreachable_collection (W:=nat)
           (DriverLayer0:=driver) 0 "has size greater than or equal"
           is_greater_than_or_equal missing 0
           "no such elements" 1 eq_refl).
Defined.

Lemma exact_texts_implies_texts_witness :
  let rows := page [item true "alpha"; item false "x"; item true "beta"] in
  succeeds (collection_has_exact_texts "self" ["alpha"; "beta"]) rows 0
  /\ succeeds (collection_has_texts "self" ["alpha"; "beta"]) rows 0.
Proof.
  intros rows. split; [reflexivity|].
  by apply (exact_texts_implies_texts "self" "self").
Defined.

Lemma exact_texts_of_nothing_witness :
  let rows := [item false "a"; item false "b"] in
  collection_call (page rows) 0 = (Got rows, 1)
  /\ (succeeds (collection_has_exact_texts "self" []) (page rows) 0 <->
      forall row, row ∈ rows -> displayed row = false).
Proof.
  intros rows. split; [reflexivity|].
  apply (exact_texts_of_nothing (W:=nat)
           (DriverLayer0:=driver) "self" _ 0 1 rows
           displayed inner_text eq_refl).
  - among.
  - intros webelement w' Hin _. revert webelement w' Hin. among.
Defined.

Lemma texts_fail_on_stale_element_witness :
  let rows := [item true "a"; gone] in
  collection_call (page rows) 0 = (Got rows, 1)
  /\ gone ∈ rows
  /\ fails (collection_has_texts "self" ["a"]) (page rows) 0
  /\ fails (collection_has_exact_texts "self" ["a"]) (page rows) 0.
Proof.
  intros rows.
  assert (gone ∈ rows) as Hin by (right; left).
  split; [reflexivity|]. split; [exact Hin|].
  apply (texts_fail_on_stale_element (W:=nat)
           (DriverLayer0:=driver) "self" ["a"] _ 0 1 rows gone
           eq_refl Hin).
  intros w'. eexists. reflexivity.
Defined.

Lemma url_implies_url_containing_witness :
  let browser :=
    {| url := "https://a.test/"; page_title := "Home"; windows := ["1"] |} in
  succeeds (browser_has_url' "https://a.test/") browser 0
  /\ succeeds (browser_has_url_containing "https://a.test/") browser 0.
Proof.
  intros browser. split; [reflexivity|].
  by apply url_implies_url_containing.
Defined.

Lemma title_implies_title_containing_witness :
  let browser :=
    {| url := "https://a.test/"; page_title := "Home"; windows := ["1"] |} in
  succeeds (browser_has_title' "Home") browser 0
  /\ succeeds (browser_has_title_containing "Home") browser 0.
Proof.
  intros browser. split; [reflexivity|].
  by apply title_implies_title_containing.
Defined.

Lemma tabs_number_not_below_zero_witness :
  let browser :=
    {| url := "https://a.test/"; page_title := "Home"; windows := [] |} in
  (0 <= 0)%Z
  /\ fails (browser_has_tabs_number_less_than 0) browser 0.
Proof.
  intros browser. split; [done|].
  refine (proj1 (tabs_number_not_below_zero (W:=nat)
           (DriverLayer0:=driver) 0 _ 0 _)). done.
Defined.

Lemma css_class_implies_class_containing_witness :
  let button :=
    Got (Some {| detached := false; displayed := true; enabled := true;
                 inner_text := "Save";
                 attributes := [("class", "btn  active")] |}) in
  succeeds (element_has_css_class "active") button 0
  /\ succeeds (value_containing (element_has_attribute "class") "active")
       button 0.
Proof.
  intros button. split; [reflexivity|].
  by apply css_class_implies_class_containing.
Defined.

Lemma css_class_one_word_only_witness :
  let button :=
    Got (Some {| detached := false; displayed := true; enabled := true;
                 inner_text := "Save";
                 attributes := [("class", "btn active")] |}) in
  Exists (fun c => is_space c = true)
    (String.list_ascii_of_string "btn active")
  /\ fails (element_has_css_class "btn active") button 0.
Proof.
  intros button.
  assert (Exists (fun c => is_space c = true)
            (String.list_ascii_of_string "btn active")) as Hspace.
  { do 3 apply Exists_cons_tl. by apply Exists_cons_hd. }
  split; [exact Hspace|].
  by apply css_class_one_word_only.
Defined.

End FurtherOnTheStub.
